(** * useCandlestickChart: the chart controller hook

  A shallow embedding of
  [src/app/tracker/components/chart/useCandlestickChart.ts] and the
  properties its specification states about it.

  Layout of the development:
  - [JsNumber]: the numbers the hook handles (integer-valued doubles and the
    three non-finite values);
  - [JsDate]: the part of the ECMAScript [Date] object the hook calls
    ([new Date], [toISOString], [getHours], [getMinutes], [getDate],
    [toLocaleString] with a short month);
  - [Chart]: the rendering engine, an external collaborator;
  - [Hook]: the hook itself, as a state-and-exception monad over its refs,
    its React state and the engine it drives;
  - the theorems, one group per component of the specification. *)

From Stdlib Require Import ZArith Lia List Sorted Ascii String.
From stdpp Require Import base decidable countable numbers strings pretty gmap.
Import ListNotations.

Local Open Scope Z_scope.

(* ===================================================================== *)
(** ** JavaScript numbers *)
(* ===================================================================== *)

Module JsNumber.

(** A TypeScript [number].  The candle times of the data model are integer
    seconds, so the finite values carried here are the integers; the three
    non-finite doubles are kept because nothing in the hook filters them.
    Products by 1000 are exact on every integer whose product is a valid
    time value (below 2^53), which is the only place where the hook does
    arithmetic on a time. *)
Inductive number : Type :=
| Finite (z : Z)
| NaN
| PosInfinity
| NegInfinity.

#[export] Instance number_eq_dec : EqDecision number.
Proof. solve_decision. Defined.

Definition number_encode (n : number) : Z + (unit + (unit + unit)) :=
  match n with
  | Finite z => inl z
  | NaN => inr (inl tt)
  | PosInfinity => inr (inr (inl tt))
  | NegInfinity => inr (inr (inr tt))
  end.

Definition number_decode (s : Z + (unit + (unit + unit))) : number :=
  match s with
  | inl z => Finite z
  | inr (inl _) => NaN
  | inr (inr (inl _)) => PosInfinity
  | inr (inr (inr _)) => NegInfinity
  end.

#[export] Instance number_countable : Countable number.
Proof.
  apply (inj_countable' number_encode number_decode).
  by intros [].
Defined.

(** [x * k] for a positive integer literal [k]. *)
Definition number_mul (x : number) (k : Z) : number :=
  match x with
  | Finite z => Finite (z * k)
  | other => other
  end.

(** [x <= y]: every comparison with NaN is false. *)
Definition number_le (x y : number) : bool :=
  match x, y with
  | NaN, _ | _, NaN => false
  | NegInfinity, _ => true
  | _, PosInfinity => true
  | Finite a, Finite b => a <=? b
  | _, _ => false
  end.

(** [x >= y]. *)
Definition number_ge (x y : number) : bool := number_le y x.

(** [x % k] for a positive integer literal [k]: the remainder has the sign of
    the dividend; it is NaN when [x] is not finite. *)
Definition number_rem (x : number) (k : Z) : number :=
  match x with
  | Finite z => Finite (Z.rem z k)
  | _ => NaN
  end.

(** [ToBoolean] on a number: 0 and NaN are falsy. *)
Definition number_truthy (x : number) : bool :=
  match x with
  | Finite 0 | NaN => false
  | _ => true
  end.

(** [x || y] on numbers. *)
Definition number_or (x y : number) : number :=
  if number_truthy x then x else y.

(** [Number.prototype.toString] (radix 10), also what a template literal
    does to a number. *)
Definition number_toString (x : number) : string :=
  match x with
  | Finite z => pretty z
  | NaN => "NaN"
  | PosInfinity => "Infinity"
  | NegInfinity => "-Infinity"
  end.

End JsNumber.
Export JsNumber.

(* ===================================================================== *)
(** ** Strings *)
(* ===================================================================== *)

Module JsString.

(** [s.padStart(n, "0")] with a one-character filler. *)
Definition padStart (n : nat) (fill : ascii) (s : string) : string :=
  String.string_of_list_ascii (repeat fill (n - String.length s)) +:+ s.

(** [s.split(sep)[0]] for a one-character separator: the text before the
    first occurrence of [sep], the whole of [s] when there is none. *)
Fixpoint split_head (sep : ascii) (s : string) : string :=
  match s with
  | EmptyString => EmptyString
  | String c rest =>
      if decide (c = sep) then EmptyString else String c (split_head sep rest)
  end.

(** The decimal digit of [d], for [0 <= d < 10]. *)
Definition digit (d : Z) : ascii :=
  match d with
  | 0 => "0" | 1 => "1" | 2 => "2" | 3 => "3" | 4 => "4"
  | 5 => "5" | 6 => "6" | 7 => "7" | 8 => "8" | _ => "9"
  end%char.

(** [n] written on exactly [w] decimal digits, zero padded. *)
Fixpoint digits (w : nat) (n : Z) : string :=
  match w with
  | O => EmptyString
  | S w' => digits w' (n / 10) +:+ String (digit (n mod 10)) EmptyString
  end.

End JsString.
Export JsString.

(* ===================================================================== *)
(** ** The Date object (ECMAScript, section "Date Objects") *)
(* ===================================================================== *)

Module JsDate.

Definition msPerDay : Z := 86400000.
Definition msPerHour : Z := 3600000.
Definition msPerMinute : Z := 60000.
Definition msPerSecond : Z := 1000.

(** The largest magnitude of a time value, 8.64e15 ms. *)
Definition maxTime : Z := 8640000000000000.

(** A Date object: its time value, [None] for the NaN time value of an
    "Invalid Date". *)
Record Date : Type := mkDate { timeValue : option Z }.

(** [TimeClip]. *)
Definition TimeClip (v : number) : option Z :=
  match v with
  | Finite z => if Z.abs z <=? maxTime then Some z else None
  | _ => None
  end.

(** [new Date(v)] for a number [v]. *)
Definition newDate (v : number) : Date := mkDate (TimeClip v).

Definition Day (t : Z) : Z := t / msPerDay.
Definition TimeWithinDay (t : Z) : Z := t mod msPerDay.

Definition DayFromYear (y : Z) : Z :=
  365 * (y - 1970) + (y - 1969) / 4 - (y - 1901) / 100 + (y - 1601) / 400.

Definition DaysInYear (y : Z) : Z :=
  if negb (y mod 4 =? 0) then 365
  else if negb (y mod 100 =? 0) then 366
  else if negb (y mod 400 =? 0) then 365
  else 366.

(** The year of day number [d]: the largest [y] with [DayFromYear y <= d].
    The mean Gregorian year gives an estimate that is off by at most one. *)
Definition YearFromDay (d : Z) : Z :=
  let y := 1970 + (400 * d) / 146097 in
  if d <? DayFromYear y then y - 1
  else if DayFromYear (y + 1) <=? d then y + 1
  else y.

Definition YearFromTime (t : Z) : Z := YearFromDay (Day t).

Definition InLeapYear (t : Z) : Z :=
  if DaysInYear (YearFromTime t) =? 366 then 1 else 0.

Definition DayWithinYear (t : Z) : Z := Day t - DayFromYear (YearFromTime t).

(** Month number, 0 for January. *)
Definition MonthFromTime (t : Z) : Z :=
  let d := DayWithinYear t in
  let leap := InLeapYear t in
  if d <? 31 then 0
  else if d <? 59 + leap then 1
  else if d <? 90 + leap then 2
  else if d <? 120 + leap then 3
  else if d <? 151 + leap then 4
  else if d <? 181 + leap then 5
  else if d <? 212 + leap then 6
  else if d <? 243 + leap then 7
  else if d <? 273 + leap then 8
  else if d <? 304 + leap then 9
  else if d <? 334 + leap then 10
  else 11.

(** Day of the month, 1 to 31. *)
Definition DateFromTime (t : Z) : Z :=
  let d := DayWithinYear t in
  let leap := InLeapYear t in
  match MonthFromTime t with
  | 0 => d + 1
  | 1 => d - 30
  | 2 => d - 58 - leap
  | 3 => d - 89 - leap
  | 4 => d - 119 - leap
  | 5 => d - 150 - leap
  | 6 => d - 180 - leap
  | 7 => d - 211 - leap
  | 8 => d - 242 - leap
  | 9 => d - 272 - leap
  | 10 => d - 303 - leap
  | _ => d - 333 - leap
  end.

Definition HourFromTime (t : Z) : Z := (t / msPerHour) mod 24.
Definition MinFromTime (t : Z) : Z := (t / msPerMinute) mod 60.
Definition SecFromTime (t : Z) : Z := (t / msPerSecond) mod 60.
Definition msFromTime (t : Z) : Z := t mod msPerSecond.

(** The year of the ISO format: four digits from 0 to 9999, otherwise the
    expanded form, a sign and six digits. *)
Definition isoYear (y : Z) : string :=
  if (0 <=? y) && (y <=? 9999) then digits 4 y
  else if 0 <=? y then "+" +:+ digits 6 y
  else "-" +:+ digits 6 (- y).

Definition isoDate (t : Z) : string :=
  isoYear (YearFromTime t) +:+ "-" +:+ digits 2 (MonthFromTime t + 1)
    +:+ "-" +:+ digits 2 (DateFromTime t).

Definition isoTime (t : Z) : string :=
  digits 2 (HourFromTime t) +:+ ":" +:+ digits 2 (MinFromTime t) +:+ ":"
    +:+ digits 2 (SecFromTime t) +:+ "." +:+ digits 3 (msFromTime t).

(** What can be thrown. *)
Inductive Exception : Type :=
| RangeError (message : string).

(** [date.toISOString()]: throws on an invalid date. *)
Definition toISOString (d : Date) : Exception + string :=
  match timeValue d with
  | None => inl (RangeError "Invalid time value")
  | Some t => inr (isoDate t +:+ "T" +:+ isoTime t +:+ "Z")
  end.

(** *** Local time

    The getters of the tick formatter read the date in the host's local time
    zone: [LocalTZA t] is the offset, in milliseconds, of local time from UTC
    at the time value [t]. *)

Section LocalTime.

Variable LocalTZA : Z -> Z.

Definition LocalTime (t : Z) : Z := t + LocalTZA t.

(** [date.getHours()], NaN on an invalid date. *)
Definition getHours (d : Date) : number :=
  match timeValue d with
  | None => NaN
  | Some t => Finite (HourFromTime (LocalTime t))
  end.

(** [date.getMinutes()]. *)
Definition getMinutes (d : Date) : number :=
  match timeValue d with
  | None => NaN
  | Some t => Finite (MinFromTime (LocalTime t))
  end.

(** [date.getDate()]. *)
Definition getDate (d : Date) : number :=
  match timeValue d with
  | None => NaN
  | Some t => Finite (DateFromTime (LocalTime t))
  end.

(** The abbreviated month names of the en-US locale. *)
Definition shortMonth (m : Z) : string :=
  match m with
  | 0 => "Jan" | 1 => "Feb" | 2 => "Mar" | 3 => "Apr" | 4 => "May"
  | 5 => "Jun" | 6 => "Jul" | 7 => "Aug" | 8 => "Sep" | 9 => "Oct"
  | 10 => "Nov" | _ => "Dec"
  end.

(** [date.toLocaleString('en-US', { month: 'short' })]. *)
Definition toLocaleString_month_short (d : Date) : string :=
  match timeValue d with
  | None => "Invalid Date"
  | Some t => shortMonth (MonthFromTime (LocalTime t))
  end.

End LocalTime.

End JsDate.
Export JsDate.


(* ===================================================================== *)
(** ** The rendering engine (lightweight-charts) *)
(* ===================================================================== *)

Module Chart.

(** The engine's [Time]: a UTC timestamp, a business day or a date string. *)
Inductive Time : Type :=
| UTCTimestamp (n : number)
| BusinessDay (year month day : number)
| BusinessDayString (s : string).

Module CandlestickData.
Record t : Type := mk
  { time : Time; open : number; high : number; low : number; close : number }.
End CandlestickData.

Module Point.
Record t : Type := mk { x : number; y : number }.
End Point.

Module MouseEventParams.
Record t : Type := mk { point : option Point.t; time : option Time }.
End MouseEventParams.

(** [typeof time === 'number'], with the number it then is. *)
Definition asNumber (time : option Time) : option number :=
  match time with
  | Some (UTCTimestamp n) => Some n
  | _ => None
  end.

(** The calls the hook makes on the engine. *)
Inductive EngineCall : Type :=
| CreateChart (width height : Z)
| AddCandlestickSeries
| SubscribeCrosshairMove
| SetData (data : list CandlestickData.t)
| FitContent
| PriceScaleApplyOptions (autoScale : bool)
| Remove.

(** Is the call one of the two that make up a view reset? *)
Definition isFitContent (c : EngineCall) : bool :=
  match c with FitContent => true | _ => false end.

Definition isAutoScale (c : EngineCall) : bool :=
  match c with PriceScaleApplyOptions true => true | _ => false end.

Definition isSetData (c : EngineCall) : bool :=
  match c with SetData _ => true | _ => false end.

(** Modelled from the spec: the rendering engine is the lightweight-charts
    library, which is not part of this repository.  Section 6 of the
    specification gives its interface and section 4.6 what a reset does to
    it: [fitContent] "fits the visible time range to encompass all currently
    loaded data", the price-scale option "re-enables automatic price-axis
    scaling", and [setData] replaces the series content wholesale.  The chart
    object carries what these act on: its size, the content of its one
    series, the visible range of the time scale (as a range of bar indices,
    [None] before anything was shown) and the auto-scale flag of the right
    price scale. *)
Record IChartApi : Type := mkChart
  { width : Z;
    height : Z;
    seriesData : list CandlestickData.t;
    visibleLogicalRange : option (Z * Z);
    autoScale : bool }.

(** The handle of the candlestick series of a chart; its content is stored in
    the chart it belongs to. *)
Inductive ISeriesApi : Type :=
| CandlestickSeries.

Definition createChart (w h : Z) : IChartApi :=
  {| width := w; height := h; seriesData := []; visibleLogicalRange := None;
     autoScale := true |}.

(** The bar range that shows all of [data]. *)
Definition fullRange (data : list CandlestickData.t) : option (Z * Z) :=
  match data with
  | [] => None
  | _ :: _ => Some (0, Z.of_nat (length data) - 1)
  end.

Definition setData (data : list CandlestickData.t) (c : IChartApi) : IChartApi :=
  {| width := width c; height := height c; seriesData := data;
     visibleLogicalRange := visibleLogicalRange c; autoScale := autoScale c |}.

Definition fitContent (c : IChartApi) : IChartApi :=
  {| width := width c; height := height c; seriesData := seriesData c;
     visibleLogicalRange := fullRange (seriesData c); autoScale := autoScale c |}.

Definition priceScaleApplyOptions (auto : bool) (c : IChartApi) : IChartApi :=
  {| width := width c; height := height c; seriesData := seriesData c;
     visibleLogicalRange := visibleLogicalRange c; autoScale := auto |}.

(** What the user's pan and zoom gestures do: they move the visible range
    and, on the price axis, switch automatic scaling off. *)
Definition userPanZoom (range : Z * Z) (c : IChartApi) : IChartApi :=
  {| width := width c; height := height c; seriesData := seriesData c;
     visibleLogicalRange := Some range; autoScale := false |}.

(** The viewport of a chart: what the user sees of the two axes. *)
Definition viewport (c : IChartApi) : option (Z * Z) * bool :=
  (visibleLogicalRange c, autoScale c).

(** The effect of a call on a live chart. *)
Definition applyCall (call : EngineCall) (c : IChartApi) : IChartApi :=
  match call with
  | SetData data => setData data c
  | FitContent => fitContent c
  | PriceScaleApplyOptions auto => priceScaleApplyOptions auto c
  | CreateChart _ _ | AddCandlestickSeries | SubscribeCrosshairMove | Remove => c
  end.

End Chart.
Export Chart.

(* ===================================================================== *)
(** ** The hook *)
(* ===================================================================== *)

Module Hook.

Module Candle.
Record t : Type := mk
  { time : number; open : number; high : number; low : number; close : number }.
End Candle.

(** The container element, as far as the hook reads it. *)
Record HTMLDivElement : Type := mkDiv { clientWidth : Z }.

(** The refs and the React state of one mounted hook, and the trace of the
    calls it has made on the engine.  [chartRef] holds the chart object; the
    series handle of [seriesRef] writes into that chart. *)
Record State : Type := mkState
  { chartRef : option IChartApi;
    seriesRef : option ISeriesApi;
    prevSymbolRef : option string;
    newDayTimestamps : gset number;
    hasData : bool;
    crosshairTime : option string;
    crosshairX : option number;
    engineCalls : list EngineCall }.

(** The state of the first render: the initial values of the refs and of the
    three [useState] cells. *)
Definition initial : State :=
  {| chartRef := None; seriesRef := None; prevSymbolRef := None;
     newDayTimestamps := ∅; hasData := false; crosshairTime := None;
     crosshairX := None; engineCalls := [] |}.

Definition set_chartRef (v : option IChartApi) (s : State) : State :=
  mkState v (seriesRef s) (prevSymbolRef s) (newDayTimestamps s) (hasData s)
    (crosshairTime s) (crosshairX s) (engineCalls s).

Definition set_seriesRef (v : option ISeriesApi) (s : State) : State :=
  mkState (chartRef s) v (prevSymbolRef s) (newDayTimestamps s) (hasData s)
    (crosshairTime s) (crosshairX s) (engineCalls s).

Definition set_prevSymbolRef (v : option string) (s : State) : State :=
  mkState (chartRef s) (seriesRef s) v (newDayTimestamps s) (hasData s)
    (crosshairTime s) (crosshairX s) (engineCalls s).

Definition set_newDayTimestamps (v : gset number) (s : State) : State :=
  mkState (chartRef s) (seriesRef s) (prevSymbolRef s) v (hasData s)
    (crosshairTime s) (crosshairX s) (engineCalls s).

Definition set_hasData (v : bool) (s : State) : State :=
  mkState (chartRef s) (seriesRef s) (prevSymbolRef s) (newDayTimestamps s) v
    (crosshairTime s) (crosshairX s) (engineCalls s).

Definition set_crosshairTime (v : option string) (s : State) : State :=
  mkState (chartRef s) (seriesRef s) (prevSymbolRef s) (newDayTimestamps s)
    (hasData s) v (crosshairX s) (engineCalls s).

Definition set_crosshairX (v : option number) (s : State) : State :=
  mkState (chartRef s) (seriesRef s) (prevSymbolRef s) (newDayTimestamps s)
    (hasData s) (crosshairTime s) v (engineCalls s).

Definition set_engineCalls (v : list EngineCall) (s : State) : State :=
  mkState (chartRef s) (seriesRef s) (prevSymbolRef s) (newDayTimestamps s)
    (hasData s) (crosshairTime s) (crosshairX s) v.

(** *** Effects

    A handler runs on the state and either completes normally or stops at a
    thrown exception; what it wrote before throwing stays written. *)

Inductive Completion (A : Type) : Type :=
| Normal (a : A)
| Throw (e : Exception).
Arguments Normal {A} a.
Arguments Throw {A} e.

Definition Eff (A : Type) : Type := State -> Completion A * State.

#[export] Instance Eff_ret : MRet Eff := fun A a s => (Normal a, s).

#[export] Instance Eff_bind : MBind Eff := fun A B f m s =>
  match m s with
  | (Normal a, s') => f a s'
  | (Throw e, s') => (Throw e, s')
  end.

Definition get : Eff State := fun s => (Normal s, s).

Definition modify (f : State -> State) : Eff unit := fun s => (Normal tt, f s).

Definition throw {A : Type} (e : Exception) : Eff A := fun s => (Throw e, s).

(** A built-in that returns or throws. *)
Definition lift {A : Type} (r : Exception + A) : Eff A :=
  match r with
  | inl e => throw e
  | inr a => mret a
  end.

(** The state a handler leaves behind. *)
Definition exec {A : Type} (m : Eff A) (s : State) : State := snd (m s).

(** Did the handler complete without throwing? *)
Definition completes {A : Type} (m : Eff A) (s : State) : bool :=
  match fst (m s) with
  | Normal _ => true
  | Throw _ => false
  end.

(** A call on the engine: it acts on the chart of [chartRef] and is
    recorded. *)
Definition engine (call : EngineCall) : Eff unit :=
  modify (fun s =>
    set_engineCalls (engineCalls s ++ [call])
      (set_chartRef (applyCall call <$> chartRef s) s)).

(** [array.forEach] with a body that updates one captured local variable:
    the variable is threaded through the iterations. *)
Fixpoint forEach {A V : Type} (body : A -> V -> Eff V) (l : list A) (v : V) : Eff V :=
  match l with
  | [] => mret v
  | a :: rest => v' ← body a v; forEach body rest v'
  end.

(** *** Mounting (the first effect, lines 36-124) *)

Definition mount (container : option HTMLDivElement) : Eff unit :=
  match container with
  | None => mret tt
  | Some el =>
      modify (fun s =>
        set_engineCalls
          (engineCalls s ++
             [CreateChart (clientWidth el) 300; AddCandlestickSeries;
              SubscribeCrosshairMove])
          (set_seriesRef (Some CandlestickSeries)
             (set_chartRef (Some (createChart (clientWidth el) 300)) s)))
  end.

(** The cleanup of the first effect. *)
Definition unmount : Eff unit :=
  modify (fun s =>
    set_engineCalls (engineCalls s ++ [Remove])
      (set_seriesRef None (set_chartRef None s))).

(** *** The crosshair subscription (lines 97-105) *)

Section Crosshair.

(** [formatCrosshairTime] comes from [./formatters]; the hook only passes its
    result on. *)
Variable formatCrosshairTime : number -> string.

Definition onCrosshairMove (param : MouseEventParams.t) : Eff unit :=
  match MouseEventParams.point param, asNumber (MouseEventParams.time param) with
  | Some point, Some time =>
      modify (set_crosshairTime (Some (formatCrosshairTime time)));;
      modify (set_crosshairX (Some (Point.x point)))
  | _, _ =>
      modify (set_crosshairTime None);;
      modify (set_crosshairX None)
  end.

End Crosshair.

(** *** Reconciliation (the second effect, lines 126-161) *)

(** The body of the [forEach] of lines 136-142; [lastDate] is the captured
    local. *)
Definition detectNewDay (c : Candle.t) (lastDate : option string) : Eff (option string) :=
  iso ← lift (toISOString (newDate (number_mul (Candle.time c) 1000)));
  let dateStr := split_head "T" iso in
  if decide (Some dateStr ≠ lastDate) then
    modify (fun s => set_newDayTimestamps ({[ Candle.time c ]} ∪ newDayTimestamps s) s);;
    mret (Some dateStr)
  else mret lastDate.

(** Lines 144-150. *)
Definition formatted (candles : list Candle.t) : list CandlestickData.t :=
  map (fun c =>
         CandlestickData.mk (UTCTimestamp (Candle.time c)) (Candle.open c)
           (Candle.high c) (Candle.low c) (Candle.close c))
      candles.

Definition sync (candles : list Candle.t) (symbol : string) : Eff unit :=
  s ← get;
  if negb (bool_decide (is_Some (seriesRef s)))
     || negb (bool_decide (is_Some (chartRef s)))
     || negb (bool_decide (length candles ≠ 0%nat))
  then modify (set_hasData false)
  else
    modify (set_newDayTimestamps ∅);;
    _ ← forEach detectNewDay candles None;
    engine (SetData (formatted candles));;
    modify (set_hasData true);;
    s ← get;
    (if decide (prevSymbolRef s ≠ Some symbol) then
       engine FitContent;;
       engine (PriceScaleApplyOptions true)
     else mret tt);;
    modify (set_prevSymbolRef (Some symbol)).

(** *** The manual reset (lines 163-166) *)

(** [chartRef.current?.f()]. *)
Definition onChart (call : EngineCall) : Eff unit :=
  s ← get;
  match chartRef s with
  | Some _ => engine call
  | None => mret tt
  end.

Definition resetView : Eff unit :=
  onChart FitContent;;
  onChart (PriceScaleApplyOptions true).

(** *** The tick formatter (lines 60-77) *)

Section TickMarks.

Variable LocalTZA : Z -> Z.

Definition tickMarkFormatter (s : State) (time : number) : string :=
  let t := time in
  let date := newDate (number_mul t 1000) in
  let hours := getHours LocalTZA date in
  let minutes := getMinutes LocalTZA date in
  if decide (t ∈ newDayTimestamps s) then
    let month := toLocaleString_month_short LocalTZA date in
    let day := getDate LocalTZA date in
    month +:+ " " +:+ number_toString day
  else
    let ampm := if number_ge hours (Finite 12) then "PM" else "AM" in
    let displayHour := number_or (number_rem hours 12) (Finite 12) in
    number_toString displayHour +:+ ":"
      +:+ padStart 2 "0" (number_toString minutes) +:+ " " +:+ ampm.

End TickMarks.

End Hook.
Export Hook.

(* ===================================================================== *)
(** ** Definitions used to state and prove the properties *)
(* ===================================================================== *)

(** A check of a boolean property on the [n] integers from [lo] on, to settle
    by evaluation what holds on one period of the calendar. *)
Fixpoint check_from (f : Z -> bool) (n : nat) (lo : Z) : bool :=
  match n with
  | O => true
  | S n' => f lo && check_from f n' (lo + 1)
  end.

(** A boolean property of every character of a string. *)
Fixpoint string_forall (p : ascii -> bool) (s : string) : bool :=
  match s with
  | EmptyString => true
  | String c rest => p c && string_forall p rest
  end.

Definition differs (sep c : ascii) : bool := negb (bool_decide (c = sep)).

(** The time values a Date can hold. *)
Definition validTime (t : Z) : Prop := Z.abs t <= maxTime.

(** The day key the reconciliation computes for a candle time (line 137),
    when [toISOString] returns one. *)
Definition dayKey (time : number) : option string :=
  match toISOString (newDate (number_mul time 1000)) with
  | inr iso => Some (split_head "T" iso)
  | inl _ => None
  end.

(** The time, in seconds, is one a Date can hold: [new Date(time * 1000)] is
    not an "Invalid Date". *)
Definition validTimestamp (time : number) : Prop :=
  is_Some (timeValue (newDate (number_mul time 1000))).

Definition validCandle (c : Candle.t) : Prop := validTimestamp (Candle.time c).

(** The UTC day number of a candle time, when it has one. *)
Definition utcDay (time : number) : option Z :=
  Day <$> timeValue (newDate (number_mul time 1000)).

(** The times a scan of [candles] marks, [lastDate] being the key seen last;
    the scan stops at a candle without a day key. *)
Fixpoint dayBoundaries (lastDate : option string) (candles : list Candle.t) : gset number :=
  match candles with
  | [] => ∅
  | c :: rest =>
      match dayKey (Candle.time c) with
      | None => ∅
      | Some key =>
          (if decide (Some key ≠ lastDate) then {[ Candle.time c ]} else ∅)
            ∪ dayBoundaries (Some key) rest
      end
  end.

(** The distinct UTC calendar days of a sequence, as their keys. *)
Definition dayKeys (candles : list Candle.t) : gset string :=
  list_to_set (omap (fun c => dayKey (Candle.time c)) candles).

(** The candle at position [i] opens a day: it is the first one, or its day
    key differs from the key of the candle just before it. *)
Definition opensDay (candles : list Candle.t) (i : nat) : Prop :=
  match i with
  | O => True
  | S j =>
      exists p c, candles !! j = Some p /\ candles !! i = Some c /\
        dayKey (Candle.time p) ≠ dayKey (Candle.time c)
  end.

(** The key the scan holds in [lastDate] when it reaches position [i]. *)
Definition prevKey (lastDate : option string) (candles : list Candle.t) (i : nat) : option string :=
  match i with
  | O => lastDate
  | S j => candles !! j ≫= fun p => dayKey (Candle.time p)
  end.

(** Ascending by time, each candle against the next. *)
Definition ascending (candles : list Candle.t) : Prop :=
  Sorted (fun a b => number_le (Candle.time a) (Candle.time b)) candles.

(** Both handles of the engine are there. *)
Definition live (s : State) : Prop :=
  is_Some (chartRef s) /\ is_Some (seriesRef s).

(** A run of reconciliation passes, one after the other; a pass that throws
    leaves its state to the next. *)
Fixpoint passes (inputs : list (list Candle.t * string)) (s : State) : State :=
  match inputs with
  | [] => s
  | (candles, symbol) :: rest => passes rest (exec (sync candles symbol) s)
  end.

(** Sample data: scenario A of the specification, on a chart mounted in a
    container 640 pixels wide. *)
Definition candle (time : number) : Candle.t :=
  Candle.mk time (Finite 100) (Finite 110) (Finite 90) (Finite 105).

Definition scenarioA : list Candle.t :=
  [candle (Finite 1700000000); candle (Finite 1700003600); candle (Finite 1700086400)].

Definition mounted : State := exec (mount (Some (mkDiv 640))) initial.

(** The two calls of a view reset. *)
Definition resetCalls : list EngineCall := [FitContent; PriceScaleApplyOptions true].

(** The labels of the time axis, as the specification words them: a month
    and a day, or a 12-hour clock time. *)
Definition monthDayLabel (month day : Z) : string :=
  shortMonth month +:+ " " +:+ pretty day.

Definition clockLabel (hours minutes : Z) : string :=
  pretty (if hours mod 12 =? 0 then 12 else hours mod 12) +:+ ":"
    +:+ digits 2 minutes +:+ " " +:+ (if hours <? 12 then "AM" else "PM").

(** The first character of a string, and two classes of characters. *)
Definition headChar (s : string) : option ascii :=
  match s with
  | EmptyString => None
  | String c _ => Some c
  end.

Definition isDigitChar (c : ascii) : bool :=
  (48 <=? nat_of_ascii c)%nat && (nat_of_ascii c <=? 57)%nat.

Definition isUpperChar (c : ascii) : bool :=
  (65 <=? nat_of_ascii c)%nat && (nat_of_ascii c <=? 90)%nat.

Definition isMonthDayLabel (s : string) : Prop :=
  exists month day, 0 <= month <= 11 /\ 1 <= day <= 31 /\ s = monthDayLabel month day.

Definition isClockLabel (s : string) : Prop :=
  exists hours minutes, 0 <= hours < 24 /\ 0 <= minutes < 60 /\ s = clockLabel hours minutes.

(** *** The hook through its events *)

(** The chart option of line 78: the longest tick label the time axis makes
    room for. *)
Definition tickMarkMaxCharacterLength : nat := 10.

(** What happens to a hook in its life: the first effect and its cleanup, the
    second effect, the manual reset, and a notification of the crosshair
    subscription. *)
Inductive Event : Type :=
| Mount (container : option HTMLDivElement)
| Unmount
| Reconcile (candles : list Candle.t) (symbol : string)
| ResetView
| CrosshairMove (param : MouseEventParams.t).

(** The events that use the engine handle without creating or disposing of
    it. *)
Definition usesHandle (e : Event) : bool :=
  match e with
  | Mount _ | Unmount => false
  | _ => true
  end.

Definition isReconcile (e : Event) : bool :=
  match e with
  | Reconcile _ _ => true
  | _ => false
  end.

Section Events.

Variable formatCrosshairTime : number -> string.

Definition handle (e : Event) : Eff unit :=
  match e with
  | Mount container => mount container
  | Unmount => unmount
  | Reconcile candles symbol => sync candles symbol
  | ResetView => resetView
  | CrosshairMove param => onCrosshairMove formatCrosshairTime param
  end.

(** The state after a run of events, in the order of delivery; an event whose
    handler throws leaves its state to the next. *)
Fixpoint run (events : list Event) (s : State) : State :=
  match events with
  | [] => s
  | e :: rest => run rest (exec (handle e) s)
  end.

End Events.

(* ===================================================================== *)
(** ** Facts about the calendar *)
(* ===================================================================== *)


Module DateFacts.

Ltac ediv := Z.to_euclidean_division_equations; lia.

Lemma check_from_sound f n lo :
  check_from f n lo = true -> forall x, lo <= x < lo + Z.of_nat n -> f x = true.
Proof.
  revert lo. induction n as [|n IH]; intros lo Hc x Hx; [lia|].
  simpl in Hc. apply andb_true_iff in Hc as [Hlo Hrest].
  destruct (decide (x = lo)) as [->|Hne]; [done|].
  apply (IH (lo + 1)); [done|lia].
Qed.

Lemma check_range f n :
  check_from f (Z.to_nat n) 0 = true -> forall x, 0 <= x < n -> f x = true.
Proof.
  intros Hc x Hx. apply (check_from_sound f (Z.to_nat n) 0 Hc). lia.
Qed.

Lemma DayFromYear_shift y k : DayFromYear (y + 400 * k) = DayFromYear y + 146097 * k.
Proof. unfold DayFromYear. ediv. Qed.

Lemma DaysInYear_shift y k : DaysInYear (y + 400 * k) = DaysInYear y.
Proof.
  unfold DaysInYear.
  replace ((y + 400 * k) mod 4) with (y mod 4) by ediv.
  replace ((y + 400 * k) mod 100) with (y mod 100) by ediv.
  replace ((y + 400 * k) mod 400) with (y mod 400) by ediv.
  done.
Qed.

Lemma YearFromDay_shift d k : YearFromDay (d + 146097 * k) = YearFromDay d + 400 * k.
Proof.
  unfold YearFromDay.
  replace (1970 + 400 * (d + 146097 * k) / 146097)
    with (1970 + 400 * d / 146097 + 400 * k) by ediv.
  replace (1970 + 400 * d / 146097 + 400 * k + 1)
    with (1970 + 400 * d / 146097 + 1 + 400 * k) by lia.
  rewrite !DayFromYear_shift.
  repeat case_match; lia.
Qed.

(** Every year has its number of days: checked on one 400-year period. *)
Lemma DayFromYear_succ y : DayFromYear (y + 1) = DayFromYear y + DaysInYear y.
Proof.
  pose (f := fun r => DayFromYear (r + 1) =? DayFromYear r + DaysInYear r).
  assert (Hf : forall r, 0 <= r < 400 -> f r = true).
  { intros r Hr. apply (check_range f 400); [vm_compute; reflexivity|exact Hr]. }
  assert (Hy : y = y mod 400 + 400 * (y / 400)) by ediv.
  specialize (Hf (y mod 400) ltac:(ediv)). apply Z.eqb_eq in Hf.
  revert Hy Hf. generalize (y mod 400) (y / 400). intros r k -> Hr.
  replace (r + 400 * k + 1) with (r + 1 + 400 * k) by lia.
  rewrite !DayFromYear_shift, DaysInYear_shift. lia.
Qed.

(** Four hundred years are 146097 days, so [DayFromYear] stays close to the
    mean year. *)
Lemma DayFromYear_mean y :
  146097 * (y - 1970) - 506 <= 400 * DayFromYear y <= 146097 * (y - 1970) + 589.
Proof. unfold DayFromYear. ediv. Qed.

(** [YearFromDay d] is the year that contains day [d]. *)
Lemma YearFromDay_spec d :
  DayFromYear (YearFromDay d) <= d < DayFromYear (YearFromDay d + 1).
Proof.
  unfold YearFromDay.
  assert (He : 146097 * (400 * d / 146097) <= 400 * d
               < 146097 * (400 * d / 146097) + 146097) by ediv.
  revert He. generalize (400 * d / 146097). intros e He.
  pose proof (DayFromYear_mean (1970 + e - 1)) as Hlo.
  pose proof (DayFromYear_mean (1970 + e + 1 + 1)) as Hhi.
  destruct (Z.ltb_spec d (DayFromYear (1970 + e))).
  { replace (1970 + e - 1 + 1) with (1970 + e) by lia. lia. }
  destruct (Z.leb_spec (DayFromYear (1970 + e + 1)) d); lia.
Qed.

Lemma DaysInYear_cases y : DaysInYear y = 365 \/ DaysInYear y = 366.
Proof. unfold DaysInYear. repeat case_match; auto. Qed.

Lemma DayWithinYear_range t :
  0 <= DayWithinYear t < DaysInYear (YearFromTime t).
Proof.
  unfold DayWithinYear, YearFromTime.
  pose proof (YearFromDay_spec (Day t)) as H.
  rewrite DayFromYear_succ in H. lia.
Qed.

Lemma InLeapYear_cases t :
  (InLeapYear t = 0 /\ DaysInYear (YearFromTime t) = 365) \/
  (InLeapYear t = 1 /\ DaysInYear (YearFromTime t) = 366).
Proof.
  unfold InLeapYear. destruct (DaysInYear_cases (YearFromTime t)) as [->| ->]; auto.
Qed.

Lemma MonthFromTime_range t : 0 <= MonthFromTime t <= 11.
Proof. unfold MonthFromTime. repeat case_match; lia. Qed.

Lemma DateFromTime_range t : 1 <= DateFromTime t <= 31.
Proof.
  pose proof (DayWithinYear_range t) as Hd.
  unfold DateFromTime, MonthFromTime.
  destruct (InLeapYear_cases t) as [[-> Hy]|[-> Hy]]; rewrite Hy in Hd;
    repeat case_match; lia.
Qed.

Lemma YearFromDay_bounds d :
  -100000000 <= d <= 100000000 -> -271821 <= YearFromDay d <= 275760.
Proof.
  intros Hd. pose proof (YearFromDay_spec d) as H. revert H.
  generalize (YearFromDay d). intros y. unfold DayFromYear. ediv.
Qed.

(** *** Fixed-width decimal fields *)

Lemma append_length (a b : string) :
  String.length (a +:+ b) = (String.length a + String.length b)%nat.
Proof. induction a as [|c a IH]; simpl; [done|by rewrite IH]. Qed.

Lemma append_inj (a1 a2 b1 b2 : string) :
  String.length a1 = String.length a2 ->
  a1 +:+ b1 = a2 +:+ b2 -> a1 = a2 /\ b1 = b2.
Proof.
  revert a2. induction a1 as [|c a1 IH]; intros [|c' a2] Hlen Heq;
    simpl in *; try discriminate; [done|].
  injection Heq as -> Heq. injection Hlen as Hlen.
  destruct (IH a2 Hlen Heq) as [-> ->]. done.
Qed.

Lemma digits_length w n : String.length (digits w n) = w.
Proof.
  revert n. induction w as [|w IH]; intros n; simpl; [done|].
  rewrite append_length, IH. simpl. lia.
Qed.

Lemma digit_inj a b : 0 <= a < 10 -> 0 <= b < 10 -> digit a = digit b -> a = b.
Proof.
  intros Ha Hb.
  assert (Hc : forall x, 0 <= x < 10 ->
            x = 0 \/ x = 1 \/ x = 2 \/ x = 3 \/ x = 4 \/ x = 5 \/ x = 6 \/
            x = 7 \/ x = 8 \/ x = 9) by (intros; lia).
  destruct (Hc a Ha) as [->|[->|[->|[->|[->|[->|[->|[->|[->| ->]]]]]]]]];
  destruct (Hc b Hb) as [->|[->|[->|[->|[->|[->|[->|[->|[->| ->]]]]]]]]];
  simpl; intros; (reflexivity || discriminate).
Qed.

Lemma digits_inj w a b :
  0 <= a < 10 ^ Z.of_nat w -> 0 <= b < 10 ^ Z.of_nat w ->
  digits w a = digits w b -> a = b.
Proof.
  revert a b. induction w as [|w IH]; intros a b Ha Hb Heq.
  { simpl in *. lia. }
  rewrite Nat2Z.inj_succ, Z.pow_succ_r in Ha, Hb by lia.
  simpl in Heq. apply append_inj in Heq as [Hhi Hlo]; [|by rewrite !digits_length].
  injection Hlo as Hlo.
  apply digit_inj in Hlo; [|ediv..].
  apply IH in Hhi; [|ediv..].
  ediv.
Qed.

Lemma digits_S w n :
  digits (S w) n = digits w (n / 10) +:+ String (digit (n mod 10)) EmptyString.
Proof. reflexivity. Qed.

#[local] Arguments digits : simpl never.

(** *** The characters of a string *)

Lemma string_forall_append p a b :
  string_forall p (a +:+ b) = string_forall p a && string_forall p b.
Proof. induction a as [|c a IH]; simpl; [done|]. by rewrite IH, andb_assoc. Qed.

Lemma split_head_append sep a b :
  string_forall (differs sep) a = true ->
  split_head sep (a +:+ String sep b) = a.
Proof.
  induction a as [|c a IH]; simpl; intros H.
  - by rewrite decide_True.
  - apply andb_true_iff in H as [Hc Ha].
    apply negb_true_iff, bool_decide_eq_false in Hc.
    rewrite decide_False by done. by rewrite IH.
Qed.

Lemma digits_forall p w n :
  (forall d, p (digit d) = true) -> string_forall p (digits w n) = true.
Proof.
  intros Hp. revert n. induction w as [|w IH]; intros n; [done|].
  rewrite digits_S, string_forall_append, IH. simpl. by rewrite Hp.
Qed.

Lemma digit_not_T d : differs "T" (digit d) = true.
Proof. unfold digit. by repeat case_match. Qed.

Lemma isoYear_not_T y : string_forall (differs "T") (isoYear y) = true.
Proof.
  unfold isoYear.
  repeat case_match; rewrite ?string_forall_append, digits_forall;
    auto using digit_not_T.
Qed.

Lemma isoDate_not_T t : string_forall (differs "T") (isoDate t) = true.
Proof.
  unfold isoDate.
  rewrite !string_forall_append, isoYear_not_T, !digits_forall;
    auto using digit_not_T.
Qed.

(** The date part is what [split('T')[0]] returns. *)
Lemma split_head_iso t rest : split_head "T" (isoDate t +:+ "T" +:+ rest) = isoDate t.
Proof. apply split_head_append, isoDate_not_T. Qed.

(** *** The day key determines the day *)

Lemma String_tail_inj c (a b : string) : String c a = String c b -> a = b.
Proof. by intros [=]. Qed.

Lemma isoYear_length y :
  String.length (isoYear y) = if (0 <=? y) && (y <=? 9999) then 4%nat else 7%nat.
Proof.
  unfold isoYear. repeat case_match; simpl; by rewrite ?digits_length.
Qed.

Lemma isoYear_inj y1 y2 :
  -1000000 < y1 < 1000000 -> -1000000 < y2 < 1000000 ->
  isoYear y1 = isoYear y2 -> y1 = y2.
Proof.
  intros H1 H2 Heq.
  pose proof (f_equal String.length Heq) as Hlen. rewrite !isoYear_length in Hlen.
  unfold isoYear in Heq.
  destruct (Z.leb_spec 0 y1), (Z.leb_spec y1 9999), (Z.leb_spec 0 y2),
    (Z.leb_spec y2 9999); simpl in *; try discriminate; try lia.
  - apply (digits_inj 4) in Heq; lia.
  - apply String_tail_inj, (digits_inj 6) in Heq; lia.
  - apply String_tail_inj, (digits_inj 6) in Heq; lia.
Qed.

Lemma Day_fields t1 t2 :
  YearFromTime t1 = YearFromTime t2 ->
  MonthFromTime t1 = MonthFromTime t2 ->
  DateFromTime t1 = DateFromTime t2 ->
  Day t1 = Day t2.
Proof.
  intros Hy Hm Hd.
  assert (Hleap : InLeapYear t1 = InLeapYear t2) by (unfold InLeapYear; by rewrite Hy).
  assert (Hw : DayWithinYear t1 = DayWithinYear t2).
  { unfold DateFromTime in Hd. rewrite Hm, Hleap in Hd.
    repeat case_match; lia. }
  unfold DayWithinYear in Hw. rewrite Hy in Hw. lia.
Qed.

Lemma fields_Day t1 t2 :
  Day t1 = Day t2 ->
  YearFromTime t1 = YearFromTime t2 /\ MonthFromTime t1 = MonthFromTime t2 /\
  DateFromTime t1 = DateFromTime t2.
Proof.
  intros Hd.
  assert (Hy : YearFromTime t1 = YearFromTime t2) by (unfold YearFromTime; by rewrite Hd).
  assert (Hleap : InLeapYear t1 = InLeapYear t2) by (unfold InLeapYear; by rewrite Hy).
  assert (Hw : DayWithinYear t1 = DayWithinYear t2)
    by (unfold DayWithinYear; by rewrite Hd, Hy).
  assert (Hm : MonthFromTime t1 = MonthFromTime t2)
    by (unfold MonthFromTime; by rewrite Hw, Hleap).
  repeat split; [done..|].
  unfold DateFromTime. by rewrite Hm, Hw, Hleap.
Qed.

Lemma validTime_year t : validTime t -> -1000000 < YearFromTime t < 1000000.
Proof.
  intros Ht. unfold YearFromTime.
  assert (-100000000 <= Day t <= 100000000)
    by (unfold validTime, maxTime, Day, msPerDay in *; ediv).
  pose proof (YearFromDay_bounds (Day t)). lia.
Qed.

Lemma isoDate_length t :
  String.length (isoDate t) = (String.length (isoYear (YearFromTime t)) + 6)%nat.
Proof. unfold isoDate. rewrite !append_length, !digits_length. simpl. lia. Qed.

(** Two valid time values have the same date part exactly when they fall on
    the same UTC day. *)
Lemma isoDate_Day t1 t2 :
  validTime t1 -> validTime t2 ->
  isoDate t1 = isoDate t2 <-> Day t1 = Day t2.
Proof.
  intros H1 H2. split.
  - intros Heq.
    pose proof (f_equal String.length Heq) as Hlen.
    rewrite !isoDate_length in Hlen. unfold isoDate in Heq.
    apply append_inj in Heq as [Hy Heq]; [|lia].
    apply String_tail_inj in Heq.
    apply append_inj in Heq as [Hm Heq]; [|by rewrite !digits_length].
    apply String_tail_inj in Heq. rename Heq into Hd.
    apply isoYear_inj in Hy; [|by apply validTime_year..].
    pose proof (MonthFromTime_range t1). pose proof (MonthFromTime_range t2).
    pose proof (DateFromTime_range t1). pose proof (DateFromTime_range t2).
    apply (digits_inj 2) in Hm; [|simpl; lia..].
    apply (digits_inj 2) in Hd; [|simpl; lia..].
    apply Day_fields; lia.
  - intros Hd. destruct (fields_Day t1 t2 Hd) as (Hy & Hm & Hdd).
    unfold isoDate. by rewrite Hy, Hm, Hdd.
Qed.

End DateFacts.

(* ===================================================================== *)
(** ** Facts about the hook *)
(* ===================================================================== *)

Module HookFacts.

Import DateFacts.

(** *** Day keys *)

Lemma dayKey_isoDate n :
  dayKey n = isoDate <$> timeValue (newDate (number_mul n 1000)).
Proof.
  unfold dayKey, toISOString.
  destruct (timeValue (newDate (number_mul n 1000))) as [t|]; [|done].
  simpl. by rewrite split_head_iso.
Qed.

Lemma timeValue_valid n t :
  timeValue (newDate n) = Some t -> validTime t.
Proof.
  unfold newDate, TimeClip, validTime. simpl.
  destruct n as [z| | |]; try discriminate.
  destruct (Z.leb_spec (Z.abs z) maxTime); [|discriminate].
  by intros [= <-].
Qed.

(** Two candle times that have a day key have the same key exactly when they
    fall on the same UTC day. *)
Lemma dayKey_utcDay a b :
  is_Some (dayKey a) -> is_Some (dayKey b) ->
  dayKey a = dayKey b <-> utcDay a = utcDay b.
Proof.
  rewrite !dayKey_isoDate. unfold utcDay.
  destruct (timeValue (newDate (number_mul a 1000))) as [ta|] eqn:Ha;
    [|intros [? ?]; discriminate].
  destruct (timeValue (newDate (number_mul b 1000))) as [tb|] eqn:Hb;
    [|intros _ [? ?]; discriminate].
  intros _ _. simpl.
  pose proof (isoDate_Day ta tb (timeValue_valid _ _ Ha) (timeValue_valid _ _ Hb)).
  split; intros [=]; f_equal; tauto.
Qed.

Lemma validTimestamp_finite n :
  validTimestamp n ->
  exists z, n = Finite z /\ validTime (z * 1000) /\
    timeValue (newDate (number_mul n 1000)) = Some (z * 1000).
Proof.
  unfold validTimestamp.
  destruct n as [z| | |]; simpl; try (intros [? ?]; discriminate).
  unfold validTime. destruct (Z.leb_spec (Z.abs (z * 1000)) maxTime); simpl;
    [|intros [? ?]; discriminate].
  intros _. by exists z.
Qed.

Lemma validTimestamp_dayKey n : validTimestamp n <-> is_Some (dayKey n).
Proof. rewrite dayKey_isoDate. unfold validTimestamp. by rewrite fmap_is_Some. Qed.

Lemma validCandle_finite c :
  validCandle c ->
  exists z, Candle.time c = Finite z /\ validTime (z * 1000) /\
    dayKey (Candle.time c) = Some (isoDate (z * 1000)) /\
    utcDay (Candle.time c) = Some (Day (z * 1000)).
Proof.
  intros (z & Ht & Hz & Htv)%validTimestamp_finite.
  exists z. rewrite dayKey_isoDate. unfold utcDay. by rewrite Htv.
Qed.

(** *** The scan of lines 133-142 *)

Lemma set_newDayTimestamps_id s : set_newDayTimestamps (newDayTimestamps s) s = s.
Proof. by destruct s. Qed.

Lemma detectNewDay_run c lastDate s :
  detectNewDay c lastDate s =
  match dayKey (Candle.time c) with
  | None => (Throw (RangeError "Invalid time value"), s)
  | Some key =>
      if decide (Some key ≠ lastDate)
      then (Normal (Some key),
            set_newDayTimestamps ({[ Candle.time c ]} ∪ newDayTimestamps s) s)
      else (Normal (Some key), s)
  end.
Proof.
  unfold detectNewDay, dayKey, mbind, Eff_bind, lift.
  destruct (toISOString _) as [e|iso] eqn:Hiso.
  - unfold toISOString in Hiso. destruct (timeValue _); by simplify_eq.
  - unfold mret, Eff_ret. destruct (decide _) as [Hne|Heq]; [done|].
    apply dec_stable in Heq. by rewrite Heq.
Qed.

Lemma forEach_detectNewDay_state candles lastDate s :
  snd (forEach detectNewDay candles lastDate s) =
  set_newDayTimestamps (dayBoundaries lastDate candles ∪ newDayTimestamps s) s.
Proof.
  revert lastDate s. induction candles as [|c rest IH]; intros lastDate s; simpl.
  - by rewrite (left_id_L ∅ (∪)), set_newDayTimestamps_id.
  - unfold mbind, Eff_bind. rewrite detectNewDay_run.
    destruct (dayKey (Candle.time c)) as [key|]; simpl.
    + destruct (decide (Some key ≠ lastDate)); rewrite IH.
      * destruct s; unfold set_newDayTimestamps; simpl. f_equal.
        by rewrite (assoc_L (∪)), (comm_L (∪) (dayBoundaries _ _)).
      * by rewrite (left_id_L ∅ (∪)).
    + by rewrite (left_id_L ∅ (∪)), set_newDayTimestamps_id.
Qed.

Lemma forEach_detectNewDay_normal candles lastDate s :
  Forall validCandle candles ->
  exists v, fst (forEach detectNewDay candles lastDate s) = Normal v.
Proof.
  intros Hv. revert lastDate s.
  induction Hv as [|c rest [key Hkey]%validTimestamp_dayKey _ IH];
    intros lastDate s; simpl; [by eexists|].
  unfold mbind, Eff_bind. rewrite detectNewDay_run, Hkey.
  destruct (decide (Some key ≠ lastDate)); apply IH.
Qed.

Lemma forEach_detectNewDay_throw candles lastDate s :
  ~ Forall validCandle candles ->
  fst (forEach detectNewDay candles lastDate s) = Throw (RangeError "Invalid time value").
Proof.
  revert lastDate s. induction candles as [|c rest IH]; intros lastDate s Hv; simpl.
  { by destruct Hv. }
  unfold mbind, Eff_bind. rewrite detectNewDay_run.
  destruct (dayKey (Candle.time c)) as [key|] eqn:Hkey; [|done].
  assert (Hrest : ~ Forall validCandle rest).
  { intros Hr. apply Hv. constructor; [|done].
    apply validTimestamp_dayKey. by exists key. }
  destruct (decide (Some key ≠ lastDate)); by apply IH.
Qed.


(** *** The three ways a reconciliation pass can go *)

Lemma guard_early (candles : list Candle.t) s :
  chartRef s = None \/ seriesRef s = None \/ candles = [] ->
  negb (bool_decide (is_Some (seriesRef s)))
  || negb (bool_decide (is_Some (chartRef s)))
  || negb (bool_decide (length candles ≠ 0%nat)) = true.
Proof.
  intros [H|[H|H]]; rewrite H; cbn; by rewrite ?orb_true_r.
Qed.

Lemma guard_live (candles : list Candle.t) s :
  live s -> candles ≠ [] ->
  negb (bool_decide (is_Some (seriesRef s)))
  || negb (bool_decide (is_Some (chartRef s)))
  || negb (bool_decide (length candles ≠ 0%nat)) = false.
Proof.
  intros [Hc Hs] Hne.
  rewrite !bool_decide_eq_true_2; [done| |done..].
  by destruct candles.
Qed.

(** The early return of lines 127-130. *)
Lemma sync_early candles symbol s :
  chartRef s = None \/ seriesRef s = None \/ candles = [] ->
  sync candles symbol s = (Normal tt, set_hasData false s).
Proof.
  intros H. unfold sync, mbind, Eff_bind, get. by rewrite guard_early.
Qed.

(** A pass that runs to its end. *)
Lemma sync_complete candles symbol s chart series :
  chartRef s = Some chart -> seriesRef s = Some series ->
  candles ≠ [] -> Forall validCandle candles ->
  sync candles symbol s =
  (Normal tt,
   {| chartRef :=
        Some (if decide (prevSymbolRef s ≠ Some symbol)
              then priceScaleApplyOptions true
                     (fitContent (setData (formatted candles) chart))
              else setData (formatted candles) chart);
      seriesRef := Some series;
      prevSymbolRef := Some symbol;
      newDayTimestamps := dayBoundaries None candles;
      hasData := true;
      crosshairTime := crosshairTime s;
      crosshairX := crosshairX s;
      engineCalls :=
        engineCalls s ++ SetData (formatted candles)
          :: (if decide (prevSymbolRef s ≠ Some symbol) then resetCalls else []) |}).
Proof.
  intros Hc Hs Hne Hv. unfold sync, mbind, Eff_bind, get.
  rewrite guard_live by (done || split; by rewrite ?Hc, ?Hs).
  unfold modify at 1.
  destruct (forEach_detectNewDay_normal candles None
              (set_newDayTimestamps ∅ s) Hv) as [v Hfst].
  pose proof (forEach_detectNewDay_state candles None (set_newDayTimestamps ∅ s)) as Hsnd.
  destruct (forEach detectNewDay candles None (set_newDayTimestamps ∅ s)) as [r s1].
  simpl in Hfst, Hsnd. subst r s1.
  unfold engine, modify, mret, Eff_ret, set_newDayTimestamps, set_engineCalls,
    set_chartRef, set_hasData, set_prevSymbolRef, resetCalls; simpl.
  rewrite Hc, Hs, (right_id_L ∅ (∪)). simpl.
  destruct (decide (prevSymbolRef s ≠ Some symbol)); simpl;
    by rewrite <- ?(assoc_L (++)).
Qed.

(** A pass stopped by a candle whose time no Date can hold. *)
Lemma sync_throws candles symbol s :
  live s -> candles ≠ [] -> ~ Forall validCandle candles ->
  sync candles symbol s =
  (Throw (RangeError "Invalid time value"),
   set_newDayTimestamps (dayBoundaries None candles) s).
Proof.
  intros Hl Hne Hv. unfold sync, mbind, Eff_bind, get.
  rewrite guard_live by done. unfold modify at 1.
  pose proof (forEach_detectNewDay_throw candles None (set_newDayTimestamps ∅ s) Hv) as Hfst.
  pose proof (forEach_detectNewDay_state candles None (set_newDayTimestamps ∅ s)) as Hsnd.
  destruct (forEach detectNewDay candles None (set_newDayTimestamps ∅ s)) as [r s1].
  simpl in Hfst, Hsnd. subst r s1.
  unfold set_newDayTimestamps; simpl. by rewrite (right_id_L ∅ (∪)).
Qed.


(** *** What the scan marks *)

Lemma prevKey_cons lastDate c rest i :
  prevKey lastDate (c :: rest) (S i) = prevKey (dayKey (Candle.time c)) rest i.
Proof. by destruct i. Qed.

Lemma elem_of_dayBoundaries candles lastDate t :
  Forall validCandle candles ->
  t ∈ dayBoundaries lastDate candles <->
  exists i c, candles !! i = Some c /\ Candle.time c = t /\
    prevKey lastDate candles i ≠ dayKey (Candle.time c).
Proof.
  intros Hv. revert lastDate.
  induction Hv as [|c rest [key Hkey]%validTimestamp_dayKey _ IH];
    intros lastDate; simpl.
  { split; [by intros ?%not_elem_of_empty|by intros (i & c & ? & _)]. }
  rewrite Hkey, elem_of_union, IH. split.
  - intros [Hhd|(i & c' & Hi & Ht & Hp)].
    + destruct (decide (Some key ≠ lastDate)) as [Hne|];
        [|by apply not_elem_of_empty in Hhd].
      apply elem_of_singleton in Hhd as ->.
      exists 0%nat, c. simpl. rewrite Hkey. split_and!; [done..|congruence].
    + exists (S i), c'. rewrite prevKey_cons, Hkey. by split_and!.
  - intros ([|i] & c' & Hi & Ht & Hp).
    + left. simpl in Hi, Hp. injection Hi as <-. rewrite Hkey in Hp.
      rewrite decide_True by congruence. by apply elem_of_singleton.
    + right. exists i, c'. rewrite prevKey_cons, Hkey in Hp. by split_and!.
Qed.

Lemma dayKeys_cons c rest key :
  dayKey (Candle.time c) = Some key -> dayKeys (c :: rest) = {[ key ]} ∪ dayKeys rest.
Proof. intros H. unfold dayKeys. simpl. by rewrite H. Qed.

Lemma elem_of_dayKeys candles key :
  key ∈ dayKeys candles <-> exists c, c ∈ candles /\ dayKey (Candle.time c) = Some key.
Proof.
  unfold dayKeys. rewrite elem_of_list_to_set, list_elem_of_omap. done.
Qed.

(** *** Ascending times are ascending days *)

#[local] Instance number_le_trans : Transitive (fun a b => Is_true (number_le a b)).
Proof.
  intros [x| | |] [y| | |] [z| | |]; simpl; try done.
  rewrite !Is_true_true, !Z.leb_le. lia.
Qed.

#[local] Instance candle_le_trans :
  Transitive (fun a b => Is_true (number_le (Candle.time a) (Candle.time b))).
Proof. intros a b c. apply number_le_trans. Qed.

Lemma Day_seconds_mono a b : a <= b -> Day (a * 1000) <= Day (b * 1000).
Proof. intros H. unfold Day, msPerDay. apply Z.div_le_mono; lia. Qed.

Lemma size_union_le (X Y : gset number) : (size (X ∪ Y) <= size X + size Y)%nat.
Proof.
  rewrite size_union_alt.
  assert (size (Y ∖ X) <= size Y)%nat by (apply subseteq_size, subseteq_difference_l; done).
  lia.
Qed.

(** On ascending candles every marked time opens a day not seen before. *)
Lemma size_dayBoundaries_from rest z0 :
  validTime (z0 * 1000) ->
  Forall validCandle rest ->
  StronglySorted (fun a b => Is_true (number_le (Candle.time a) (Candle.time b))) rest ->
  Forall (fun c => Is_true (number_le (Finite z0) (Candle.time c))) rest ->
  (size (dayBoundaries (Some (isoDate (z0 * 1000))) rest) + 1
   <= size ({[ isoDate (z0 * 1000) ]} ∪ dayKeys rest))%nat.
Proof.
  intros Hz0 Hv. revert z0 Hz0.
  induction Hv as [|c rest Hc Hv IH]; intros z0 Hz0 Hs Hlo.
  { change (dayKeys []) with (∅ : gset string). cbn [dayBoundaries].
    rewrite (right_id_L ∅ (∪)), size_empty, size_singleton. lia. }
  apply StronglySorted_inv in Hs as [Hs Hcr].
  apply Forall_cons in Hlo as [Hlo0 Hlo].
  destruct (validCandle_finite c Hc) as (z & Htime & Hz & Hkey & _).
  rewrite Htime in Hlo0. simpl in Hlo0. apply Is_true_true, Z.leb_le in Hlo0.
  assert (Hge : Forall (fun c' => Is_true (number_le (Finite z) (Candle.time c'))) rest).
  { rewrite <- Htime. done. }
  cbn [dayBoundaries]. rewrite Hkey, (dayKeys_cons c rest _ Hkey).
  destruct (decide (Some (isoDate (z * 1000)) ≠ Some (isoDate (z0 * 1000)))) as [Hne|Heq].
  - (* a new day: its key is not among the keys seen so far *)
    specialize (IH z Hz Hs Hge).
    assert (Hfresh : isoDate (z0 * 1000) ∉ ({[ isoDate (z * 1000) ]} ∪ dayKeys rest : gset string)).
    { assert (Hlt : Day (z0 * 1000) < Day (z * 1000)).
      { pose proof (Day_seconds_mono z0 z Hlo0).
        destruct (decide (Day (z0 * 1000) = Day (z * 1000))) as [Hd|]; [|lia].
        apply (isoDate_Day _ _ Hz0 Hz) in Hd. congruence. }
      rewrite elem_of_union, elem_of_singleton, elem_of_dayKeys.
      intros [Hk|(c' & Hin & Hk)].
      - apply (isoDate_Day _ _ Hz0 Hz) in Hk. lia.
      - rewrite Forall_forall in Hge, Hv.
        destruct (validCandle_finite c' (Hv c' Hin)) as (z' & Htime' & Hz' & Hkey' & _).
        specialize (Hge c' Hin). rewrite Htime' in Hge. simpl in Hge.
        apply Is_true_true, Z.leb_le in Hge.
        pose proof (Day_seconds_mono z z' Hge).
        rewrite Hkey' in Hk. injection Hk as Hk.
        apply (isoDate_Day _ _ Hz' Hz0) in Hk. lia. }
    rewrite (size_union {[ isoDate (z0 * 1000) ]}), size_singleton
      by (by apply disjoint_singleton_l).
    pose proof (size_union_le {[ Candle.time c ]} (dayBoundaries (Some (isoDate (z * 1000))) rest)).
    rewrite size_singleton in *. lia.
  - (* the same day as before *)
    apply dec_stable in Heq. injection Heq as Heq. rewrite Heq.
    rewrite (left_id_L ∅ (∪)), (assoc_L (∪)), (idemp_L (∪)).
    by apply IH.
Qed.

Lemma size_dayBoundaries candles :
  Forall validCandle candles -> ascending candles ->
  (size (dayBoundaries None candles) <= size (dayKeys candles))%nat.
Proof.
  intros Hv Hs. apply (Sorted.Sorted_StronglySorted candle_le_trans) in Hs.
  destruct Hv as [|c rest Hc Hv]; [done|].
  apply StronglySorted_inv in Hs as [Hs Hcr].
  destruct (validCandle_finite c Hc) as (z & Htime & Hz & Hkey & _).
  cbn [dayBoundaries]. rewrite Hkey, (dayKeys_cons c rest _ Hkey), decide_True by done.
  assert (Hge : Forall (fun c' => Is_true (number_le (Finite z) (Candle.time c'))) rest).
  { rewrite <- Htime. done. }
  pose proof (size_dayBoundaries_from rest z Hz Hv Hs Hge).
  pose proof (size_union_le {[ Candle.time c ]} (dayBoundaries (Some (isoDate (z * 1000))) rest)).
  rewrite size_singleton in *. lia.
Qed.

(** With valid times, the scan from no key marks the candles that open a
    day. *)
Lemma dayBoundaries_opensDay candles t :
  Forall validCandle candles ->
  t ∈ dayBoundaries None candles <->
  exists i c, candles !! i = Some c /\ Candle.time c = t /\ opensDay candles i.
Proof.
  intros Hv. rewrite (elem_of_dayBoundaries _ _ _ Hv).
  split; intros (i & c & Hi & Ht & Hp); exists i, c; split_and!; try done.
  - destruct i as [|j]; [done|].
    destruct (lookup_lt_is_Some_2 candles j) as [p Hpj].
    { apply lookup_lt_Some in Hi. lia. }
    unfold prevKey in Hp. rewrite Hpj in Hp. by exists p, c.
  - destruct i as [|j].
    + simpl. rewrite Forall_forall in Hv.
      assert (Hc' : validCandle c) by (apply Hv, list_elem_of_lookup; eauto).
      apply validTimestamp_dayKey in Hc' as [key ->]. done.
    + destruct Hp as (p & c' & Hp & Hc' & Hne). simpl.
      rewrite Hp. simpl. congruence.
Qed.

End HookFacts.

Import DateFacts HookFacts.

(* ===================================================================== *)
(** ** DayBoundaryDetector *)
(* ===================================================================== *)

(** The sample data are what the theorems ask for. *)
Lemma live_mounted : live mounted.
Proof. split; eexists; reflexivity. Qed.

Lemma scenarioA_valid : Forall validCandle scenarioA.
Proof. repeat constructor; eexists; vm_compute; reflexivity. Qed.

Lemma candle_valid z :
  Z.abs (z * 1000) <= maxTime -> Forall validCandle [candle (Finite z)].
Proof.
  intros Hz. repeat constructor. unfold validCandle, validTimestamp. simpl.
  destruct (Z.leb_spec (Z.abs (z * 1000)) maxTime); [by eexists|lia].
Qed.

Lemma live_after_sync candles symbol s :
  live s -> live (exec (sync candles symbol) s).
Proof.
  intros Hl.
  destruct (decide (candles = [])) as [->|Hne].
  { unfold exec. rewrite sync_early by auto. exact Hl. }
  destruct (decide (Forall validCandle candles)) as [Hv|Hv].
  - destruct Hl as [[chart Hc] [series Hs]]. unfold exec.
    rewrite (sync_complete _ _ _ chart series) by done. split; by eexists.
  - unfold exec. by rewrite sync_throws.
Qed.

(** Scenario A of the specification: two candles on 14 November 2023 and one
    on the next day. *)
Example scenarioA_boundaries :
  newDayTimestamps (exec (sync scenarioA "AAPL") mounted)
  = {[ Finite 1700000000; Finite 1700086400 ]}.
Proof. vm_compute. reflexivity. Qed.

(** C1, as the code has it.  For every ascending non-empty candle sequence
    whose times are all valid Date time values, the set of day boundaries that
    a reconciliation pass with a live engine handle computes contains the
    first candle's time, contains exactly the times of the candles that open
    a day (the first candle, and every candle whose UTC day key differs from
    the key of the candle just before it), and has between 1 and as many
    elements as there are distinct UTC calendar days in the sequence. *)
Theorem day_boundaries first rest symbol s :
  live s ->
  Forall validCandle (first :: rest) ->
  ascending (first :: rest) ->
  let marked := newDayTimestamps (exec (sync (first :: rest) symbol) s) in
  Candle.time first ∈ marked /\
  (forall t, t ∈ marked <->
     exists i c, (first :: rest) !! i = Some c /\ Candle.time c = t /\
       opensDay (first :: rest) i) /\
  (1 <= size marked <= size (dayKeys (first :: rest)))%nat.
Proof.
  intros [[chart Hc] [series Hs]] Hv Hasc marked.
  assert (Hmarked : marked = dayBoundaries None (first :: rest)).
  { unfold marked, exec. by rewrite (sync_complete _ _ _ chart series). }
  assert (Hopens : forall t, t ∈ marked <->
     exists i c, (first :: rest) !! i = Some c /\ Candle.time c = t /\
       opensDay (first :: rest) i).
  { intros t. rewrite Hmarked, (elem_of_dayBoundaries _ _ _ Hv).
    split; intros (i & c & Hi & Ht & Hp); exists i, c; split_and!; try done.
    - destruct i as [|j]; [done|].
      destruct (lookup_lt_is_Some_2 (first :: rest) j) as [p Hpj].
      { apply lookup_lt_Some in Hi. lia. }
      unfold prevKey in Hp. rewrite Hpj in Hp. by exists p, c.
    - destruct i as [|j].
      + simpl. rewrite Forall_forall in Hv.
        assert (Hc' : validCandle c) by (apply Hv, list_elem_of_lookup; eauto).
        apply validTimestamp_dayKey in Hc' as [key ->]. done.
      + destruct Hp as (p & c' & Hp & Hc' & Hne). simpl.
        rewrite Hp. simpl. congruence. }
  assert (Hfirst : Candle.time first ∈ marked).
  { apply Hopens. by exists 0%nat, first. }
  split_and!; [done..| |].
  - apply singleton_subseteq_l, subseteq_size in Hfirst.
    by rewrite size_singleton in Hfirst.
  - rewrite Hmarked. by apply size_dayBoundaries.
Qed.

Lemma day_boundaries_witness :
  live mounted /\ Forall validCandle scenarioA /\ ascending scenarioA /\
  let marked := newDayTimestamps (exec (sync scenarioA "AAPL") mounted) in
  Finite 1700000000 ∈ marked /\
  (forall t, t ∈ marked <->
     exists i c, scenarioA !! i = Some c /\ Candle.time c = t /\ opensDay scenarioA i) /\
  (1 <= size marked <= size (dayKeys scenarioA))%nat.
Proof.
  assert (Hl : live mounted) by (split; eexists; reflexivity).
  assert (Hv : Forall validCandle scenarioA)
    by (repeat constructor; eexists; vm_compute; reflexivity).
  assert (Ha : ascending scenarioA) by (repeat constructor).
  split_and!; [done..|].
  exact (day_boundaries (candle (Finite 1700000000))
           [candle (Finite 1700003600); candle (Finite 1700086400)] "AAPL" mounted Hl Hv Ha).
Defined.

(** C1 as stated fails on a candle whose time no Date can hold: the pass
    stops at [toISOString] with nothing marked, so the first candle's time is
    not in the set. *)
Lemma day_boundaries_counterexample :
  live mounted /\ ascending [candle (Finite 8640000000001)] /\
  Candle.time (candle (Finite 8640000000001))
    ∉ newDayTimestamps (exec (sync [candle (Finite 8640000000001)] "AAPL") mounted).
Proof.
  split_and!; [split; eexists; reflexivity|repeat constructor|].
  assert (H : newDayTimestamps (exec (sync [candle (Finite 8640000000001)] "AAPL") mounted) = ∅)
    by (vm_compute; reflexivity).
  rewrite H. apply not_elem_of_empty.
Qed.

(* ===================================================================== *)
(** ** DataSynchronizer *)
(* ===================================================================== *)

(** Scenario B of the specification: an empty sequence. *)
Example scenarioB_empty :
  sync [] "AAPL" mounted = (Normal tt, mounted).
Proof. reflexivity. Qed.

(** Scenario D of the specification: from "AAPL" to "MSFT" with fresh
    candles, after the user has moved the view. *)
Example scenarioD_symbol_change :
  let s1 := exec (sync scenarioA "AAPL") mounted in
  let s1' := set_chartRef (userPanZoom (1, 2) <$> chartRef s1) s1 in
  let s2 := exec (sync [candle (Finite 1700090000)] "MSFT") s1' in
  engineCalls s2
  = engineCalls s1 ++ [SetData (formatted [candle (Finite 1700090000)]);
                       FitContent; PriceScaleApplyOptions true]
  /\ viewport <$> chartRef s1' = Some (Some (1, 2), false)
  /\ viewport <$> chartRef s2 = Some (Some (0, 0), true).
Proof. vm_compute. auto. Qed.

(** C2.  A reconciliation pass with no live engine handle, or with an empty
    candle sequence, sets [hasData] to false, makes no call on the rendering
    engine (the trace of calls and the chart are as before: no series update,
    no reset) and raises no exception. *)
Theorem sync_without_handle_or_data candles symbol s :
  chartRef s = None \/ seriesRef s = None \/ candles = [] ->
  let s' := exec (sync candles symbol) s in
  hasData s' = false /\
  engineCalls s' = engineCalls s /\
  chartRef s' = chartRef s /\
  completes (sync candles symbol) s = true.
Proof.
  intros H. unfold exec, completes. rewrite (sync_early _ _ _ H). done.
Qed.

Lemma sync_without_handle_or_data_witness :
  let s := exec (sync scenarioA "AAPL") mounted in
  let s' := exec (sync [] "AAPL") s in
  hasData s = true /\
  hasData s' = false /\
  engineCalls s' = engineCalls s /\
  chartRef s' = chartRef s /\
  completes (sync [] "AAPL") s = true.
Proof.
  split; [reflexivity|].
  apply (sync_without_handle_or_data [] "AAPL" (exec (sync scenarioA "AAPL") mounted)).
  right; right; reflexivity.
Defined.

(** C6, as the code has it.  A reconciliation pass with a live engine handle
    and a non-empty sequence whose candle times are all valid Date time values
    pushes the whole sequence to the engine as the new content of the series,
    whatever the content was before; every candle goes through with its time,
    open, high, low and close unchanged, non-finite prices included; and
    [hasData] is true afterwards. *)
Theorem sync_pushes_candles candles symbol s :
  live s -> candles ≠ [] -> Forall validCandle candles ->
  let s' := exec (sync candles symbol) s in
  (exists reset, engineCalls s' = engineCalls s ++ SetData (formatted candles) :: reset) /\
  seriesData <$> chartRef s' = Some (formatted candles) /\
  length (formatted candles) = length candles /\
  (forall i c, candles !! i = Some c ->
     formatted candles !! i
     = Some (CandlestickData.mk (UTCTimestamp (Candle.time c)) (Candle.open c)
               (Candle.high c) (Candle.low c) (Candle.close c))) /\
  hasData s' = true.
Proof.
  intros [[chart Hc] [series Hs]] Hne Hv. unfold exec.
  rewrite (sync_complete _ _ _ chart series) by done. simpl.
  split_and!.
  - eexists. reflexivity.
  - by destruct (decide _).
  - apply length_map.
  - intros i c Hi. unfold formatted. by rewrite list_lookup_fmap, Hi.
  - done.
Qed.

Lemma sync_pushes_candles_witness :
  let candles := [Candle.mk (Finite 1700000000) NaN PosInfinity NegInfinity (Finite 105)] in
  let s' := exec (sync candles "AAPL") mounted in
  seriesData <$> chartRef s'
  = Some [CandlestickData.mk (UTCTimestamp (Finite 1700000000)) NaN PosInfinity
            NegInfinity (Finite 105)]
  /\ hasData s' = true.
Proof.
  pose (candles := [Candle.mk (Finite 1700000000) NaN PosInfinity NegInfinity (Finite 105)]).
  assert (Hl : live mounted) by (split; eexists; reflexivity).
  assert (Hne : candles ≠ []) by discriminate.
  assert (Hv : Forall validCandle candles)
    by (repeat constructor; eexists; vm_compute; reflexivity).
  destruct (sync_pushes_candles candles "AAPL" mounted Hl Hne Hv)
    as (_ & Hdata & _ & _ & Hhas).
  split; [exact Hdata|exact Hhas].
Defined.

(** C6 as stated fails on a candle whose time is not finite: the pass throws
    before anything is pushed, and [hasData] stays false. *)
Lemma sync_pushes_candles_counterexample :
  let candles := [candle NaN] in
  let s' := exec (sync candles "AAPL") mounted in
  live mounted /\ candles ≠ [] /\
  completes (sync candles "AAPL") mounted = false /\
  engineCalls s' = engineCalls mounted /\
  seriesData <$> chartRef s' = Some [] /\
  hasData s' = false.
Proof.
  cbv zeta. split_and!; [exact live_mounted|discriminate|..];
    vm_compute; reflexivity.
Qed.

(** What a pass that runs to its end records and calls. *)
Lemma sync_complete_calls candles symbol s :
  live s -> candles ≠ [] -> Forall validCandle candles ->
  let s' := exec (sync candles symbol) s in
  live s' /\
  prevSymbolRef s' = Some symbol /\
  newDayTimestamps s' = dayBoundaries None candles /\
  (prevSymbolRef s ≠ Some symbol ->
     engineCalls s' = engineCalls s ++ SetData (formatted candles) :: resetCalls /\
     viewport <$> chartRef s' = Some (fullRange (formatted candles), true)) /\
  (prevSymbolRef s = Some symbol ->
     engineCalls s' = engineCalls s ++ [SetData (formatted candles)] /\
     viewport <$> chartRef s' = viewport <$> chartRef s).
Proof.
  intros [[chart Hc] [series Hs]] Hne Hv. unfold exec.
  rewrite (sync_complete _ _ _ chart series) by done. simpl.
  split_and!; [by split; eexists|done|done|..].
  - intros Hp. by rewrite !decide_True by done.
  - intros Hp. rewrite !decide_False by (by intros ?). by rewrite Hc.
Qed.

(** What a pass stopped by an exception leaves behind. *)
Lemma sync_throws_frame candles symbol s :
  live s -> candles ≠ [] -> ~ Forall validCandle candles ->
  let s' := exec (sync candles symbol) s in
  completes (sync candles symbol) s = false /\
  live s' /\
  prevSymbolRef s' = prevSymbolRef s /\
  engineCalls s' = engineCalls s /\
  chartRef s' = chartRef s /\
  hasData s' = hasData s /\
  newDayTimestamps s' = dayBoundaries None candles.
Proof.
  intros Hl Hne Hv. unfold exec, completes. by rewrite sync_throws.
Qed.

(** C3, as the code has it.  Take two consecutive reconciliation passes with
    a live engine handle and non-empty data whose candle times are all valid
    Date time values.  The first records its symbol.  If the symbol of the
    second differs from it, the second pass performs exactly one automatic
    view reset, a fit-to-content followed by the price-axis autoscale, after
    pushing its data, and records the new symbol; if the symbol is the same,
    the second pass only pushes its data: no reset, and the viewport is the
    one it found. *)
Theorem symbol_change_resets candles1 symbol1 candles2 symbol2 s :
  live s ->
  candles1 ≠ [] -> Forall validCandle candles1 ->
  candles2 ≠ [] -> Forall validCandle candles2 ->
  let s1 := exec (sync candles1 symbol1) s in
  let s2 := exec (sync candles2 symbol2) s1 in
  prevSymbolRef s1 = Some symbol1 /\
  (symbol2 ≠ symbol1 ->
     engineCalls s2
     = engineCalls s1 ++ [SetData (formatted candles2); FitContent;
                          PriceScaleApplyOptions true] /\
     viewport <$> chartRef s2 = Some (fullRange (formatted candles2), true) /\
     prevSymbolRef s2 = Some symbol2) /\
  (symbol2 = symbol1 ->
     engineCalls s2 = engineCalls s1 ++ [SetData (formatted candles2)] /\
     viewport <$> chartRef s2 = viewport <$> chartRef s1 /\
     prevSymbolRef s2 = Some symbol2).
Proof.
  intros Hl Hne1 Hv1 Hne2 Hv2 s1 s2.
  destruct (sync_complete_calls candles1 symbol1 s Hl Hne1 Hv1)
    as (Hl1 & Hp1 & _ & _ & _). fold s1 in Hl1, Hp1.
  destruct (sync_complete_calls candles2 symbol2 s1 Hl1 Hne2 Hv2)
    as (_ & Hp2 & _ & Hchanged & Hsame). fold s2 in Hp2, Hchanged, Hsame.
  split_and!; [done|..].
  - intros Hne. destruct Hchanged as [Hcalls Hview]; [rewrite Hp1; congruence|].
    by split_and!.
  - intros ->. destruct Hsame as [Hcalls Hview]; [done|]. by split_and!.
Qed.

Lemma symbol_change_resets_witness :
  let s1 := exec (sync scenarioA "AAPL") mounted in
  let s2 := exec (sync [candle (Finite 1700090000)] "MSFT") s1 in
  let s3 := exec (sync scenarioA "MSFT") s2 in
  engineCalls s2
  = engineCalls s1 ++ [SetData (formatted [candle (Finite 1700090000)]); FitContent;
                       PriceScaleApplyOptions true] /\
  prevSymbolRef s2 = Some "MSFT" /\
  engineCalls s3 = engineCalls s2 ++ [SetData (formatted scenarioA)] /\
  viewport <$> chartRef s3 = viewport <$> chartRef s2.
Proof.
  assert (Hl : live mounted) by exact live_mounted.
  assert (Hl1 : live (exec (sync scenarioA "AAPL") mounted))
    by exact (live_after_sync _ _ _ live_mounted).
  assert (HvA : Forall validCandle scenarioA) by exact scenarioA_valid.
  assert (Hv2 : Forall validCandle [candle (Finite 1700090000)])
    by (apply candle_valid; vm_compute; discriminate).
  assert (HneA : scenarioA ≠ []) by discriminate.
  assert (Hne2 : [candle (Finite 1700090000)] ≠ []) by discriminate.
  destruct (symbol_change_resets scenarioA "AAPL" [candle (Finite 1700090000)] "MSFT"
              mounted Hl HneA HvA Hne2 Hv2) as (_ & Hchanged & _).
  destruct (symbol_change_resets [candle (Finite 1700090000)] "MSFT" scenarioA "MSFT"
              (exec (sync scenarioA "AAPL") mounted) Hl1 Hne2 Hv2 HneA HvA)
    as (_ & _ & Hsame).
  destruct Hchanged as (H1 & _ & H2); [discriminate|].
  destruct Hsame as (H3 & H4 & _); [reflexivity|].
  split_and!; [exact H1|exact H2|exact H3|exact H4].
Defined.

(** C3 as stated fails when the second pass carries a candle whose time no
    Date can hold: the symbol differs from the recorded one, yet the pass
    makes no call at all and the recorded symbol stays the old one. *)
Lemma symbol_change_resets_counterexample :
  let s1 := exec (sync scenarioA "AAPL") mounted in
  let candles2 := [candle (Finite 8640000000001)] in
  let s2 := exec (sync candles2 "MSFT") s1 in
  live mounted /\ live s1 /\ candles2 ≠ [] /\
  prevSymbolRef s1 = Some "AAPL" /\
  engineCalls s2 = engineCalls s1 /\
  prevSymbolRef s2 = Some "AAPL".
Proof.
  cbv zeta.
  split_and!; [exact live_mounted|exact (live_after_sync _ _ _ live_mounted)
              |discriminate|..]; vm_compute; reflexivity.
Qed.

(** Passes with an empty sequence change nothing but [hasData]. *)
Lemma passes_empty inputs s :
  Forall (fun input => fst input = []) inputs ->
  passes inputs s = s \/ passes inputs s = set_hasData false s.
Proof.
  intros H. revert s. induction H as [|[candles symbol] rest Hc _ IH]; intros s.
  { by left. }
  simpl in Hc. subst candles. simpl. unfold exec.
  rewrite !sync_early by auto. simpl.
  destruct (IH (set_hasData false s)) as [-> | ->]; by right.
Qed.

(** C9, as the code has it.  After the first mount of the hook in a
    container, its refs being those of the first render, and after any number
    of passes with an empty sequence, the first reconciliation pass with a
    non-empty candle sequence whose times are all valid Date time values
    performs the automatic view reset, whatever the symbol: the recorded
    symbol is still the initial null, which no string equals.  After a
    cleanup and a new mount the recorded symbol is the one of before the
    cleanup, and the first such pass performs the reset exactly when its
    symbol differs from it. *)
Theorem first_pass_resets container earlier candles symbol :
  Forall (fun input => fst input = []) earlier ->
  candles ≠ [] -> Forall validCandle candles ->
  let s := passes earlier (exec (mount (Some container)) initial) in
  live s /\
  prevSymbolRef s = None /\
  engineCalls (exec (sync candles symbol) s)
  = engineCalls s ++ [SetData (formatted candles); FitContent;
                      PriceScaleApplyOptions true] /\
  (forall before,
     let again :=
       passes earlier (exec (mount (Some container)) (exec unmount before)) in
     live again /\
     prevSymbolRef again = prevSymbolRef before /\
     (prevSymbolRef before ≠ Some symbol ->
        engineCalls (exec (sync candles symbol) again)
        = engineCalls again ++ [SetData (formatted candles); FitContent;
                                PriceScaleApplyOptions true]) /\
     (prevSymbolRef before = Some symbol ->
        engineCalls (exec (sync candles symbol) again)
        = engineCalls again ++ [SetData (formatted candles)])).
Proof.
  intros He Hne Hv s.
  assert (Hafter : forall s0,
            live (passes earlier (exec (mount (Some container)) s0)) /\
            prevSymbolRef (passes earlier (exec (mount (Some container)) s0))
            = prevSymbolRef s0).
  { intros s0.
    destruct (passes_empty earlier (exec (mount (Some container)) s0) He)
      as [-> | ->]; (split; [split; eexists; reflexivity|reflexivity]). }
  destruct (Hafter initial) as [Hl Hp]. fold s in Hl, Hp. simpl in Hp.
  split_and!; [done..| |].
  - destruct (sync_complete_calls candles symbol s Hl Hne Hv)
      as (_ & _ & _ & Hchanged & _).
    apply Hchanged. by rewrite Hp.
  - intros before again. destruct (Hafter (exec unmount before)) as [Hl' Hp'].
    fold again in Hl', Hp'. simpl in Hp'.
    destruct (sync_complete_calls candles symbol again Hl' Hne Hv)
      as (_ & _ & _ & Hchanged & Hsame).
    split_and!; [done..| |].
    + intros Hd. apply Hchanged. by rewrite Hp'.
    + intros Hd. apply Hsame. by rewrite Hp'.
Qed.

Lemma first_pass_resets_witness :
  let s := passes [([], "AAPL")] mounted in
  engineCalls (exec (sync scenarioA "MSFT") s)
  = engineCalls s ++ [SetData (formatted scenarioA); FitContent;
                      PriceScaleApplyOptions true].
Proof.
  assert (He : Forall (fun input : list Candle.t * string => fst input = []) [([], "AAPL")])
    by (repeat constructor).
  assert (Hne : scenarioA ≠ []) by discriminate.
  assert (Hv : Forall validCandle scenarioA) by exact scenarioA_valid.
  exact (proj1 (proj2 (proj2
           (first_pass_resets (mkDiv 640) [([], "AAPL")] scenarioA "MSFT" He Hne Hv)))).
Defined.

(** C9 as stated fails in two ways.  When the first non-empty sequence
    carries a candle whose time no Date can hold, the pass makes no call on
    the engine, so no reset.  And after a cleanup and a new mount the
    recorded symbol is not null: a first pass that brings it only pushes its
    data. *)
Lemma first_pass_resets_counterexample :
  let candles := [candle (Finite 8640000000001)] in
  let s := exec (sync scenarioA "AAPL") mounted in
  let again := exec (mount (Some (mkDiv 640))) (exec unmount s) in
  live mounted /\ candles ≠ [] /\
  prevSymbolRef mounted = None /\
  engineCalls (exec (sync candles "AAPL") mounted) = engineCalls mounted /\
  live again /\
  engineCalls (exec (sync scenarioA "AAPL") again)
  = engineCalls again ++ [SetData (formatted scenarioA)].
Proof.
  cbv zeta.
  split_and!; [exact live_mounted|discriminate|vm_compute; reflexivity
              |vm_compute; reflexivity|split; eexists; reflexivity
              |vm_compute; reflexivity].
Qed.

(** C7, as the code has it.  On a reconciliation pass with a live engine
    handle and a non-empty candle snapshot whose times are all valid Date
    time values, the set of day boundaries is recomputed in full from the
    snapshot: it is exactly the set of the times of the candles that open a
    day.  On every pass with a live handle and a non-empty snapshot, valid or
    not, the set owes nothing to the one before: whatever state the pass
    starts from, it ends with the same set.  A pass that returns early (no
    live handle, or an empty snapshot) leaves the set as it was. *)
Theorem boundaries_recomputed candles symbol s :
  let s' := exec (sync candles symbol) s in
  (live s -> candles ≠ [] -> Forall validCandle candles ->
   forall t, t ∈ newDayTimestamps s' <->
     exists i c, candles !! i = Some c /\ Candle.time c = t /\ opensDay candles i) /\
  (live s -> candles ≠ [] ->
   forall symbol0 s0, live s0 ->
     newDayTimestamps (exec (sync candles symbol0) s0) = newDayTimestamps s') /\
  (chartRef s = None \/ seriesRef s = None \/ candles = [] ->
   newDayTimestamps s' = newDayTimestamps s).
Proof.
  intros s'.
  assert (H : forall symbol0 s0, live s0 -> candles ≠ [] ->
            newDayTimestamps (exec (sync candles symbol0) s0)
            = dayBoundaries None candles).
  { intros symbol0 s0 Hl Hne.
    destruct (decide (Forall validCandle candles)) as [Hv|Hv].
    - by destruct (sync_complete_calls candles symbol0 s0 Hl Hne Hv) as (_ & _ & ? & _).
    - by destruct (sync_throws_frame candles symbol0 s0 Hl Hne Hv)
        as (_ & _ & _ & _ & _ & _ & ?). }
  split_and!.
  - intros Hl Hne Hv t. unfold s'. rewrite (H _ _ Hl Hne).
    by apply dayBoundaries_opensDay.
  - intros Hl Hne symbol0 s0 Hl0. unfold s'. by rewrite !H.
  - intros He. unfold s', exec. by rewrite sync_early.
Qed.

Lemma boundaries_recomputed_witness :
  let s1 := mounted in
  let s2 := exec (sync [candle (Finite 0)] "MSFT") mounted in
  newDayTimestamps s1 ≠ newDayTimestamps s2 /\
  newDayTimestamps (exec (sync scenarioA "AAPL") s1)
  = newDayTimestamps (exec (sync scenarioA "AAPL") s2) /\
  newDayTimestamps (exec (sync [] "AAPL") s2) = newDayTimestamps s2.
Proof.
  cbv zeta. split; [vm_compute; discriminate|].
  assert (Hl1 : live mounted) by exact live_mounted.
  assert (Hl2 : live (exec (sync [candle (Finite 0)] "MSFT") mounted))
    by exact (live_after_sync _ _ _ live_mounted).
  assert (Hne : scenarioA ≠ []) by discriminate.
  split.
  - exact (proj1 (proj2 (boundaries_recomputed scenarioA "AAPL"
                           (exec (sync [candle (Finite 0)] "MSFT") mounted)))
             Hl2 Hne "AAPL" mounted Hl1).
  - exact (proj2 (proj2 (boundaries_recomputed [] "AAPL"
                           (exec (sync [candle (Finite 0)] "MSFT") mounted)))
             (or_intror (or_intror eq_refl))).
Defined.

(** C7 as stated fails in two ways.  On an empty snapshot the pass returns
    early and the set is the one of the snapshot before, so two passes on the
    same (empty) snapshot end with different sets.  And on a snapshot with a
    candle whose time no Date can hold the scan is cut short: the candle
    after it opens a day and is not marked. *)
Lemma boundaries_recomputed_counterexample :
  let s1 := mounted in
  let s2 := exec (sync scenarioA "AAPL") mounted in
  let cut := [candle (Finite 1700000000); candle NaN; candle (Finite 1700086400)] in
  live s1 /\ live s2 /\
  newDayTimestamps (exec (sync [] "AAPL") s2) = {[ Finite 1700000000; Finite 1700086400 ]} /\
  newDayTimestamps (exec (sync [] "AAPL") s1) ≠ newDayTimestamps (exec (sync [] "AAPL") s2) /\
  opensDay cut 2 /\
  newDayTimestamps (exec (sync cut "AAPL") s1) = {[ Finite 1700000000 ]}.
Proof.
  cbv zeta. split_and!.
  - exact live_mounted.
  - exact (live_after_sync _ _ _ live_mounted).
  - vm_compute. reflexivity.
  - vm_compute. discriminate.
  - eexists _, _. split_and!; [reflexivity|reflexivity|vm_compute; discriminate].
  - vm_compute. reflexivity.
Qed.





(* ===================================================================== *)
(** ** TimeFormatter *)
(* ===================================================================== *)

Module LabelFacts.

Lemma HourFromTime_range t : 0 <= HourFromTime t < 24.
Proof. unfold HourFromTime. apply Z.mod_pos_bound. lia. Qed.

Lemma MinFromTime_range t : 0 <= MinFromTime t < 60.
Proof. unfold MinFromTime. apply Z.mod_pos_bound. lia. Qed.

(** [minutes.toString().padStart(2, '0')] writes the minutes on two digits. *)
Lemma padStart_minutes m : 0 <= m < 60 -> padStart 2 "0" (pretty m) = digits 2 m.
Proof.
  intros Hm.
  pose (f := fun m => bool_decide (padStart 2 "0" (pretty m) = digits 2 m)).
  assert (Hf : f m = true) by (apply (check_range f 60); [vm_compute; reflexivity|exact Hm]).
  by apply bool_decide_eq_true in Hf.
Qed.

(** [hours % 12 || 12]. *)
Lemma displayHour_eq h :
  0 <= h < 24 ->
  number_or (number_rem (Finite h) 12) (Finite 12)
  = Finite (if h mod 12 =? 0 then 12 else h mod 12).
Proof.
  intros Hh. unfold number_or, number_rem, number_truthy.
  rewrite Z.rem_mod_nonneg by lia.
  destruct (Z.eqb_spec (h mod 12) 0) as [->|Hne]; [done|].
  by destruct (h mod 12).
Qed.

Lemma ampm_eq h :
  (if number_ge (Finite h) (Finite 12) then "PM" else "AM")
  = (if h <? 12 then "AM" else "PM").
Proof.
  unfold number_ge, number_le.
  destruct (Z.leb_spec 12 h), (Z.ltb_spec h 12); (done || lia).
Qed.

(** The hour of a clock label is written with one or two digits. *)
Lemma pretty_hour x :
  1 <= x <= 12 ->
  exists c rest, pretty x = String c rest /\ isDigitChar c = true /\
    (String.length rest <= 1)%nat.
Proof.
  intros Hx.
  assert (Hc : x = 1 \/ x = 2 \/ x = 3 \/ x = 4 \/ x = 5 \/ x = 6 \/ x = 7 \/
               x = 8 \/ x = 9 \/ x = 10 \/ x = 11 \/ x = 12) by lia.
  destruct Hc as [->|[->|[->|[->|[->|[->|[->|[->|[->|[->|[->| ->]]]]]]]]]]];
    (set (p := pretty _); vm_compute in p; subst p; eexists _, _;
     split_and!; [reflexivity|reflexivity|simpl; lia]).
Qed.

Lemma displayed_hour_range h : 1 <= (if h mod 12 =? 0 then 12 else h mod 12) <= 12.
Proof.
  pose proof (Z.mod_pos_bound h 12 ltac:(lia)).
  destruct (Z.eqb_spec (h mod 12) 0); lia.
Qed.

Lemma clockLabel_head h m :
  exists c, headChar (clockLabel h m) = Some c /\ isDigitChar c = true.
Proof.
  unfold clockLabel.
  destruct (pretty_hour _ (displayed_hour_range h)) as (c & rest & -> & Hc & _).
  by exists c.
Qed.

Lemma clockLabel_length h m : (String.length (clockLabel h m) <= 8)%nat.
Proof.
  unfold clockLabel.
  destruct (pretty_hour _ (displayed_hour_range h)) as (c & rest & -> & _ & Hlen).
  rewrite !append_length, digits_length.
  destruct (h <? 12); simpl; lia.
Qed.

Lemma monthDayLabel_head month day :
  exists c, headChar (monthDayLabel month day) = Some c /\ isUpperChar c = true.
Proof.
  unfold monthDayLabel, shortMonth. repeat case_match; by eexists.
Qed.

(** No string is both a month-and-day label and a clock label. *)
Lemma label_kinds_disjoint s : isMonthDayLabel s -> isClockLabel s -> False.
Proof.
  intros (month & day & _ & _ & ->) (h & m & _ & _ & Heq).
  destruct (monthDayLabel_head month day) as (c & Hc & Hupper).
  destruct (clockLabel_head h m) as (c' & Hc' & Hdigit).
  rewrite Heq, Hc' in Hc. injection Hc as ->.
  unfold isUpperChar, isDigitChar in *.
  apply andb_true_iff in Hupper as [H1 _]. apply andb_true_iff in Hdigit as [_ H2].
  apply Nat.leb_le in H1, H2. lia.
Qed.

End LabelFacts.

Import LabelFacts.

Example clock_midnight : clockLabel 0 5 = "12:05 AM".
Proof. vm_compute. reflexivity. Qed.

Example clock_noon : clockLabel 12 0 = "12:00 PM".
Proof. vm_compute. reflexivity. Qed.

(** Scenario A of the specification, read in UTC: a date on the first candle
    of each day, a time of day on the other. *)
Example scenarioA_labels :
  map (tickMarkFormatter (fun _ => 0) (exec (sync scenarioA "AAPL") mounted))
      [Finite 1700000000; Finite 1700003600; Finite 1700086400]
  = ["Nov 14"; "11:13 PM"; "Nov 15"].
Proof. vm_compute. reflexivity. Qed.

(** C4, as the code has it.  Take a timestamp that is a valid Date time
    value, and read it in local time.  If it is a day boundary, the tick
    formatter returns the abbreviated month name followed by the day of the
    month, which is never a time-of-day label.  Otherwise it returns the
    12-hour clock label H:MM AM/PM, minutes on two digits, the hours 0 and 12
    both shown as 12, which is never a month-and-day label. *)
Theorem tick_labels LocalTZA s time :
  validTimestamp time ->
  exists t, timeValue (newDate (number_mul time 1000)) = Some t /\
  let local := LocalTime LocalTZA t in
  let label := tickMarkFormatter LocalTZA s time in
  (time ∈ newDayTimestamps s ->
     label = monthDayLabel (MonthFromTime local) (DateFromTime local) /\
     isMonthDayLabel label /\ ~ isClockLabel label) /\
  (time ∉ newDayTimestamps s ->
     label = clockLabel (HourFromTime local) (MinFromTime local) /\
     isClockLabel label /\ ~ isMonthDayLabel label).
Proof.
  intros (z & -> & Hz & Htv)%validTimestamp_finite.
  exists (z * 1000). split; [done|]. intros local label.
  assert (Hmd : isMonthDayLabel (monthDayLabel (MonthFromTime local) (DateFromTime local))).
  { exists (MonthFromTime local), (DateFromTime local).
    split; [apply MonthFromTime_range|]. split; [apply DateFromTime_range|done]. }
  assert (Hcl : isClockLabel (clockLabel (HourFromTime local) (MinFromTime local))).
  { exists (HourFromTime local), (MinFromTime local).
    split; [apply HourFromTime_range|]. split; [apply MinFromTime_range|done]. }
  split.
  - intros Hin.
    assert (Hlabel : label = monthDayLabel (MonthFromTime local) (DateFromTime local)).
    { unfold label, tickMarkFormatter. rewrite decide_True by done.
      unfold toLocaleString_month_short, getDate. by rewrite Htv. }
    rewrite Hlabel. split_and!; [done..|].
    intros Hc. exact (label_kinds_disjoint _ Hmd Hc).
  - intros Hnotin.
    assert (Hlabel : label = clockLabel (HourFromTime local) (MinFromTime local)).
    { unfold label, tickMarkFormatter. rewrite decide_False by done.
      unfold getHours, getMinutes. rewrite Htv. fold local.
      rewrite displayHour_eq, ampm_eq by apply HourFromTime_range.
      unfold number_toString. by rewrite padStart_minutes by apply MinFromTime_range. }
    rewrite Hlabel. split_and!; [done..|].
    intros Hm. exact (label_kinds_disjoint _ Hm Hcl).
Qed.

Lemma tick_labels_witness :
  let s := exec (sync scenarioA "AAPL") mounted in
  tickMarkFormatter (fun _ => -18000000) s (Finite 1700086400) = "Nov 15" /\
  tickMarkFormatter (fun _ => -18000000) s (Finite 1700003600) = "6:13 PM" /\
  ~ isClockLabel "Nov 15" /\ ~ isMonthDayLabel "6:13 PM".
Proof.
  pose (s := exec (sync scenarioA "AAPL") mounted).
  assert (Hv1 : validTimestamp (Finite 1700086400)) by (eexists; vm_compute; reflexivity).
  assert (Hv2 : validTimestamp (Finite 1700003600)) by (eexists; vm_compute; reflexivity).
  assert (Hin : Finite 1700086400 ∈ newDayTimestamps s)
    by (apply (bool_decide_unpack _); vm_compute; exact I).
  assert (Hout : Finite 1700003600 ∉ newDayTimestamps s)
    by (apply (bool_decide_unpack _); vm_compute; exact I).
  destruct (tick_labels (fun _ => -18000000) s (Finite 1700086400) Hv1) as (t1 & _ & H1 & _).
  destruct (tick_labels (fun _ => -18000000) s (Finite 1700003600) Hv2) as (t2 & _ & _ & H2).
  destruct (H1 Hin) as (_ & _ & Hn1). destruct (H2 Hout) as (_ & _ & Hn2).
  split_and!; [vm_compute; reflexivity|vm_compute; reflexivity|exact Hn1|exact Hn2].
Defined.

(** C4 as stated fails on a timestamp that no Date can hold: every getter
    returns NaN, and off a day boundary the formatter returns "12:NaN AM",
    which is not a clock label. *)
Lemma tick_labels_counterexample :
  (Finite 8640000000001 ∉ newDayTimestamps initial) /\
  tickMarkFormatter (fun _ => 0) initial (Finite 8640000000001) = "12:NaN AM" /\
  ~ isClockLabel "12:NaN AM".
Proof.
  split_and!.
  - apply not_elem_of_empty.
  - vm_compute. reflexivity.
  - intros (h & m & _ & _ & Heq).
    pose proof (clockLabel_length h m) as Hlen. rewrite <- Heq in Hlen.
    simpl in Hlen. lia.
Qed.

(* ===================================================================== *)
(** ** CrosshairTracker *)
(* ===================================================================== *)

(** Scenario C of the specification: a notification without a point clears
    the crosshair, whatever it showed. *)
Example scenarioC_no_point fmt s time :
  let s' := exec (onCrosshairMove fmt (MouseEventParams.mk None time)) s in
  crosshairTime s' = None /\ crosshairX s' = None.
Proof. done. Qed.

(** C5.  After a pointer-move notification the crosshair time and the
    crosshair offset are both null if and only if the notification has no
    pixel point or its time is not a number; otherwise the crosshair time is
    the formatted label of the reported time and the crosshair offset is the
    x of the reported point. *)
Theorem crosshair_move formatCrosshairTime param s :
  let s' := exec (onCrosshairMove formatCrosshairTime param) s in
  ((crosshairTime s' = None /\ crosshairX s' = None) <->
   (MouseEventParams.point param = None \/
    asNumber (MouseEventParams.time param) = None)) /\
  (forall point time,
     MouseEventParams.point param = Some point ->
     MouseEventParams.time param = Some (UTCTimestamp time) ->
     crosshairTime s' = Some (formatCrosshairTime time) /\
     crosshairX s' = Some (Point.x point)).
Proof.
  unfold exec, onCrosshairMove.
  destruct (MouseEventParams.point param) as [point|];
    destruct (asNumber (MouseEventParams.time param)) as [time|] eqn:Htime; simpl.
  - split.
    + split; [by intros [? ?]|by intros [?|?]].
    + intros point' time' [= <-] Ht. rewrite Ht in Htime. by injection Htime as <-.
  - split; [by split; auto|]. intros point' time' _ Ht. by rewrite Ht in Htime.
  - split; [by split; auto|]. by intros.
  - split; [by split; auto|]. by intros.
Qed.

(* ===================================================================== *)
(** ** ViewResetPolicy *)
(* ===================================================================== *)

(** C8.  Calling [resetView] twice in a row leaves the chart, and so its
    viewport, as calling it once does: the visible range that shows all the
    loaded data, and automatic scaling of the price axis; the data is not
    touched.  With no engine handle, [resetView] does nothing. *)
Theorem resetView_idempotent s :
  chartRef (exec resetView (exec resetView s)) = chartRef (exec resetView s) /\
  viewport <$> chartRef (exec resetView (exec resetView s))
  = viewport <$> chartRef (exec resetView s) /\
  viewport <$> chartRef (exec resetView s)
  = (fun c => (fullRange (seriesData c), true)) <$> chartRef s /\
  seriesData <$> chartRef (exec resetView s) = seriesData <$> chartRef s /\
  (chartRef s = None -> resetView s = (Normal tt, s)).
Proof.
  destruct s as [[chart|] ? ? ? ? ? ? ?]; split_and!; try done.
Qed.

(* ===================================================================== *)
(** ** More on the day keys *)
(* ===================================================================== *)

Module DayKeyFacts.

Lemma Day_seconds z : Day (z * 1000) = z / 86400.
Proof.
  unfold Day, msPerDay. change 86400000 with (86400 * 1000).
  apply Z.div_mul_cancel_r; lia.
Qed.

Lemma DayFromYear_0 : DayFromYear 0 = -719528.
Proof. reflexivity. Qed.

Lemma DayFromYear_10000 : DayFromYear 10000 = 2932897.
Proof. reflexivity. Qed.

(** The days of the years 0 to 9999. *)
Lemma YearFromDay_four_digits d :
  -719528 <= d < 2932897 -> 0 <= YearFromDay d <= 9999.
Proof.
  intros Hd. pose proof (YearFromDay_spec d) as Hspec.
  revert Hspec. generalize (YearFromDay d). intros y Hspec.
  pose proof (DayFromYear_mean (y + 1)). pose proof (DayFromYear_mean y).
  pose proof DayFromYear_0. pose proof DayFromYear_10000.
  split.
  - destruct (decide (y + 1 = 0)) as [Hy|Hy]; [rewrite Hy in Hspec; lia|lia].
  - destruct (decide (y = 10000)) as [Hy|Hy]; [rewrite Hy in Hspec; lia|lia].
Qed.

Lemma dayBoundaries_valid lastDate candles t :
  t ∈ dayBoundaries lastDate candles -> validTimestamp t.
Proof.
  revert lastDate. induction candles as [|c rest IH]; intros lastDate; simpl.
  { by intros ?%not_elem_of_empty. }
  destruct (dayKey (Candle.time c)) as [key|] eqn:Hkey;
    [|by intros ?%not_elem_of_empty].
  rewrite elem_of_union. intros [Hhd|Htl]; [|by eapply IH].
  destruct (decide (Some key ≠ lastDate)); [|by apply not_elem_of_empty in Hhd].
  apply elem_of_singleton in Hhd as ->.
  apply validTimestamp_dayKey. by exists key.
Qed.

Lemma dayBoundaries_app_invalid lastDate pre bad post :
  Forall validCandle pre -> ~ validCandle bad ->
  dayBoundaries lastDate (pre ++ bad :: post) = dayBoundaries lastDate pre.
Proof.
  intros Hv Hbad. revert lastDate.
  induction Hv as [|c rest [key Hkey]%validTimestamp_dayKey _ IH]; intros lastDate; simpl.
  - destruct (dayKey (Candle.time bad)) as [key|] eqn:Hkey; [|done].
    destruct Hbad. apply validTimestamp_dayKey. by exists key.
  - by rewrite Hkey, IH.
Qed.

Lemma size_dayBoundaries_length lastDate candles :
  (size (dayBoundaries lastDate candles) <= length candles)%nat.
Proof.
  revert lastDate. induction candles as [|c rest IH]; intros lastDate;
    cbn [dayBoundaries length].
  { by rewrite size_empty. }
  destruct (dayKey (Candle.time c)) as [key|]; [|rewrite size_empty; lia].
  specialize (IH (Some key)).
  pose proof (size_union_le
    (if decide (Some key ≠ lastDate) then {[ Candle.time c ]} else ∅)
    (dayBoundaries (Some key) rest)) as Hle.
  destruct (decide (Some key ≠ lastDate));
    rewrite ?size_singleton, ?size_empty in Hle; lia.
Qed.

(** On ascending candles a time marked after day [z0] lies on a later day. *)
Lemma dayBoundaries_later rest z0 t :
  validTime (z0 * 1000) ->
  Forall validCandle rest ->
  StronglySorted (fun a b => Is_true (number_le (Candle.time a) (Candle.time b))) rest ->
  Forall (fun c => Is_true (number_le (Finite z0) (Candle.time c))) rest ->
  t ∈ dayBoundaries (Some (isoDate (z0 * 1000))) rest ->
  exists z, t = Finite z /\ validTime (z * 1000) /\ Day (z0 * 1000) < Day (z * 1000).
Proof.
  intros Hz0 Hv. revert z0 Hz0.
  induction Hv as [|c rest Hc Hv IH]; intros z0 Hz0 Hs Hlo Hin.
  { by apply not_elem_of_empty in Hin. }
  apply StronglySorted_inv in Hs as [Hs Hcr].
  apply Forall_cons in Hlo as [Hlo0 Hlo].
  destruct (validCandle_finite c Hc) as (z & Htime & Hz & Hkey & _).
  rewrite Htime in Hlo0. simpl in Hlo0. apply Is_true_true, Z.leb_le in Hlo0.
  pose proof (Day_seconds_mono z0 z Hlo0) as Hmono.
  cbn [dayBoundaries] in Hin. rewrite Hkey in Hin.
  apply elem_of_union in Hin as [Hhd|Htl].
  - destruct (decide (Some (isoDate (z * 1000)) ≠ Some (isoDate (z0 * 1000)))) as [Hne|];
      [|by apply not_elem_of_empty in Hhd].
    apply elem_of_singleton in Hhd as ->. exists z. split_and!; [done..|].
    destruct (decide (Day (z0 * 1000) = Day (z * 1000))) as [Hd|]; [|lia].
    apply (isoDate_Day _ _ Hz0 Hz) in Hd. congruence.
  - assert (Hge : Forall (fun c' => Is_true (number_le (Finite z) (Candle.time c'))) rest).
    { rewrite <- Htime. done. }
    destruct (IH z Hz Hs Hge Htl) as (z' & -> & Hz' & Hlt).
    exists z'. split_and!; [done..|lia].
Qed.

(** On ascending candles the marked times are as many as the days. *)
Lemma size_dayBoundaries_days rest z0 :
  validTime (z0 * 1000) ->
  Forall validCandle rest ->
  StronglySorted (fun a b => Is_true (number_le (Candle.time a) (Candle.time b))) rest ->
  Forall (fun c => Is_true (number_le (Finite z0) (Candle.time c))) rest ->
  (size (dayBoundaries (Some (isoDate (z0 * 1000))) rest) + 1
   = size ({[ isoDate (z0 * 1000) ]} ∪ dayKeys rest))%nat.
Proof.
  intros Hz0 Hv. revert z0 Hz0.
  induction Hv as [|c rest Hc Hv IH]; intros z0 Hz0 Hs Hlo.
  { change (dayKeys []) with (∅ : gset string). cbn [dayBoundaries].
    rewrite (right_id_L ∅ (∪)), size_empty, size_singleton. lia. }
  pose proof Hs as Hs0. pose proof Hlo as Hlo'.
  apply StronglySorted_inv in Hs as [Hs Hcr].
  apply Forall_cons in Hlo as [Hlo0 Hlo].
  destruct (validCandle_finite c Hc) as (z & Htime & Hz & Hkey & _).
  rewrite Htime in Hlo0. simpl in Hlo0. apply Is_true_true, Z.leb_le in Hlo0.
  assert (Hge : Forall (fun c' => Is_true (number_le (Finite z) (Candle.time c'))) rest).
  { rewrite <- Htime. done. }
  cbn [dayBoundaries]. rewrite Hkey, (dayKeys_cons c rest _ Hkey).
  destruct (decide (Some (isoDate (z * 1000)) ≠ Some (isoDate (z0 * 1000)))) as [Hne|Heq].
  - specialize (IH z Hz Hs Hge).
    assert (Hlt : Day (z0 * 1000) < Day (z * 1000)).
    { pose proof (Day_seconds_mono z0 z Hlo0).
      destruct (decide (Day (z0 * 1000) = Day (z * 1000))) as [Hd|]; [|lia].
      apply (isoDate_Day _ _ Hz0 Hz) in Hd. congruence. }
    assert (Hfresh : isoDate (z0 * 1000) ∉ ({[ isoDate (z * 1000) ]} ∪ dayKeys rest : gset string)).
    { rewrite elem_of_union, elem_of_singleton, elem_of_dayKeys.
      intros [Hk|(c' & Hin & Hk)].
      - apply (isoDate_Day _ _ Hz0 Hz) in Hk. lia.
      - rewrite Forall_forall in Hge, Hv.
        destruct (validCandle_finite c' (Hv c' Hin)) as (z' & Htime' & Hz' & Hkey' & _).
        specialize (Hge c' Hin). rewrite Htime' in Hge. simpl in Hge.
        apply Is_true_true, Z.leb_le in Hge.
        pose proof (Day_seconds_mono z z' Hge).
        rewrite Hkey' in Hk. injection Hk as Hk.
        apply (isoDate_Day _ _ Hz' Hz0) in Hk. lia. }
    assert (Hnew : Candle.time c ∉ dayBoundaries (Some (isoDate (z * 1000))) rest).
    { intros Hin. destruct (dayBoundaries_later rest z _ Hz Hv Hs Hge Hin)
        as (z' & Heq & _ & Hlt').
      rewrite Htime in Heq. injection Heq as <-. lia. }
    rewrite (size_union {[ isoDate (z0 * 1000) ]}), size_singleton
      by (by apply disjoint_singleton_l).
    rewrite (size_union {[ Candle.time c ]}), size_singleton
      by (by apply disjoint_singleton_l).
    lia.
  - apply dec_stable in Heq. injection Heq as Heq. rewrite Heq.
    rewrite (left_id_L ∅ (∪)), (assoc_L (∪)), (idemp_L (∪)).
    by apply IH.
Qed.

End DayKeyFacts.

Import DayKeyFacts.

(* ===================================================================== *)
(** ** Further properties of the day scan *)
(* ===================================================================== *)

(** X1.  Two candle times that a Date can hold get the same day key exactly
    when they fall on the same UTC day, the day of a time in seconds being
    its quotient by 86400. *)
Theorem dayKey_same_day a b :
  validTimestamp (Finite a) -> validTimestamp (Finite b) ->
  dayKey (Finite a) = dayKey (Finite b) <-> a / 86400 = b / 86400.
Proof.
  intros Ha Hb.
  rewrite (dayKey_utcDay _ _ (proj1 (validTimestamp_dayKey _) Ha)
             (proj1 (validTimestamp_dayKey _) Hb)).
  destruct (validTimestamp_finite _ Ha) as (za & [= <-] & _ & Hta).
  destruct (validTimestamp_finite _ Hb) as (zb & [= <-] & _ & Htb).
  unfold utcDay. rewrite Hta, Htb. simpl. rewrite !Day_seconds.
  split; [by intros [= ?]|by intros ->].
Qed.

Lemma dayKey_same_day_witness :
  dayKey (Finite 1700000000) = dayKey (Finite 1700003600) <->
  1700000000 / 86400 = 1700003600 / 86400.
Proof.
  apply dayKey_same_day; eexists; vm_compute; reflexivity.
Defined.

(** X2.  For a candle time in the years 0 to 9999 (from -62167219200 to
    253402300799 seconds) the day key is the ten characters YYYY-MM-DD of the
    comment on line 137: four digits of a year, two of a month from 1 to 12,
    two of a day from 1 to 31. *)
Theorem dayKey_format z :
  -62167219200 <= z <= 253402300799 ->
  exists year month day,
    0 <= year <= 9999 /\ 1 <= month <= 12 /\ 1 <= day <= 31 /\
    dayKey (Finite z)
    = Some (digits 4 year +:+ "-" +:+ digits 2 month +:+ "-" +:+ digits 2 day) /\
    (forall key, dayKey (Finite z) = Some key -> String.length key = 10%nat).
Proof.
  intros Hz.
  assert (Hv : validTimestamp (Finite z)).
  { unfold validTimestamp. simpl.
    destruct (Z.leb_spec (Z.abs (z * 1000)) maxTime) as [|Hbad]; [by eexists|].
    unfold maxTime in Hbad. lia. }
  destruct (validTimestamp_finite _ Hv) as (z' & [= <-] & _ & Htv).
  assert (Hy : 0 <= YearFromTime (z * 1000) <= 9999).
  { unfold YearFromTime. apply YearFromDay_four_digits.
    rewrite Day_seconds. Z.to_euclidean_division_equations; lia. }
  assert (Hkey : dayKey (Finite z)
     = Some (digits 4 (YearFromTime (z * 1000)) +:+ "-"
             +:+ digits 2 (MonthFromTime (z * 1000) + 1) +:+ "-"
             +:+ digits 2 (DateFromTime (z * 1000)))).
  { rewrite dayKey_isoDate, Htv. simpl. unfold isoDate, isoYear.
    destruct (Z.leb_spec 0 (YearFromTime (z * 1000))); [|lia].
    destruct (Z.leb_spec (YearFromTime (z * 1000)) 9999); [|lia]. done. }
  pose proof (MonthFromTime_range (z * 1000)).
  exists (YearFromTime (z * 1000)), (MonthFromTime (z * 1000) + 1),
    (DateFromTime (z * 1000)).
  split; [done|]. split; [lia|]. split; [apply DateFromTime_range|].
  split; [done|].
  intros key. rewrite Hkey. intros Heq.
  assert (Hk : key = digits 4 (YearFromTime (z * 1000)) +:+ "-"
                 +:+ digits 2 (MonthFromTime (z * 1000) + 1) +:+ "-"
                 +:+ digits 2 (DateFromTime (z * 1000))) by congruence.
  rewrite Hk. by rewrite !append_length, !digits_length.
Qed.

Lemma dayKey_format_witness :
  dayKey (Finite 1700000000) = Some "2023-11-14" /\
  exists year month day,
    0 <= year <= 9999 /\ 1 <= month <= 12 /\ 1 <= day <= 31 /\
    dayKey (Finite 1700000000)
    = Some (digits 4 year +:+ "-" +:+ digits 2 month +:+ "-" +:+ digits 2 day) /\
    (forall key, dayKey (Finite 1700000000) = Some key -> String.length key = 10%nat).
Proof.
  split; [vm_compute; reflexivity|].
  apply (dayKey_format 1700000000). lia.
Defined.

(** X3.  On an ascending sequence whose times are all valid, a pass with a
    live handle marks exactly one time for each UTC calendar day of the
    sequence: the set has as many elements as there are distinct days. *)
Theorem one_boundary_per_day candles symbol s :
  live s -> candles ≠ [] -> Forall validCandle candles -> ascending candles ->
  size (newDayTimestamps (exec (sync candles symbol) s)) = size (dayKeys candles).
Proof.
  intros [[chart Hc] [series Hs]] Hne Hv Hasc. unfold exec.
  rewrite (sync_complete _ _ _ chart series) by done. simpl.
  apply (Sorted.Sorted_StronglySorted candle_le_trans) in Hasc.
  destruct Hv as [|c rest Hvc Hv]; [done|].
  apply StronglySorted_inv in Hasc as [Hs' Hcr].
  destruct (validCandle_finite c Hvc) as (z & Htime & Hz & Hkey & _).
  assert (Hge : Forall (fun c' => Is_true (number_le (Finite z) (Candle.time c'))) rest).
  { rewrite <- Htime. done. }
  cbn [dayBoundaries]. rewrite Hkey, (dayKeys_cons c rest _ Hkey), decide_True by done.
  assert (Hnew : Candle.time c ∉ dayBoundaries (Some (isoDate (z * 1000))) rest).
  { intros Hin. destruct (dayBoundaries_later rest z _ Hz Hv Hs' Hge Hin)
      as (z' & Heq & _ & Hlt').
    rewrite Htime in Heq. injection Heq as <-. lia. }
  rewrite (size_union {[ Candle.time c ]}), size_singleton
    by (by apply disjoint_singleton_l).
  pose proof (size_dayBoundaries_days rest z Hz Hv Hs' Hge). lia.
Qed.

Lemma one_boundary_per_day_witness :
  size (newDayTimestamps (exec (sync scenarioA "AAPL") mounted)) = size (dayKeys scenarioA)
  /\ size (dayKeys scenarioA) = 2%nat.
Proof.
  split; [|vm_compute; reflexivity].
  apply one_boundary_per_day;
    [exact live_mounted|discriminate|exact scenarioA_valid|repeat constructor].
Defined.

(** X4.  Whatever the order of a sequence whose times are all valid, a pass
    with a live handle marks exactly the times of the candles that open a day
    (the first candle, and every candle whose day key differs from the key of
    the candle before it); every marked time is the time of a candle, and
    there are at most as many as candles. *)
Theorem boundaries_any_order candles symbol s :
  live s -> candles ≠ [] -> Forall validCandle candles ->
  let marked := newDayTimestamps (exec (sync candles symbol) s) in
  (forall t, t ∈ marked <->
     exists i c, candles !! i = Some c /\ Candle.time c = t /\ opensDay candles i) /\
  (forall t, t ∈ marked -> exists c, c ∈ candles /\ Candle.time c = t) /\
  (size marked <= length candles)%nat.
Proof.
  intros [[chart Hc] [series Hs]] Hne Hv marked.
  assert (Hmarked : marked = dayBoundaries None candles).
  { unfold marked, exec. by rewrite (sync_complete _ _ _ chart series). }
  assert (Hopens : forall t, t ∈ marked <->
     exists i c, candles !! i = Some c /\ Candle.time c = t /\ opensDay candles i).
  { intros t. rewrite Hmarked, (elem_of_dayBoundaries _ _ _ Hv).
    split; intros (i & c & Hi & Ht & Hp); exists i, c; split_and!; try done.
    - destruct i as [|j]; [done|].
      destruct (lookup_lt_is_Some_2 candles j) as [p Hpj].
      { apply lookup_lt_Some in Hi. lia. }
      unfold prevKey in Hp. rewrite Hpj in Hp. by exists p, c.
    - destruct i as [|j].
      + simpl. rewrite Forall_forall in Hv.
        assert (Hc' : validCandle c) by (apply Hv, list_elem_of_lookup; eauto).
        apply validTimestamp_dayKey in Hc' as [key ->]. done.
      + destruct Hp as (p & c' & Hp & Hc' & Hne'). simpl.
        rewrite Hp. simpl. congruence. }
  split_and!; [done| |].
  - intros t (i & c & Hi & Ht & _)%Hopens. exists c. split; [|done].
    apply list_elem_of_lookup. eauto.
  - rewrite Hmarked. apply size_dayBoundaries_length.
Qed.

(** An ascending order is needed for X3: out of order, a day can be opened
    twice. *)
Lemma boundaries_any_order_witness :
  let candles := [candle (Finite 1700086400); candle (Finite 1700000000);
                  candle (Finite 1700090000)] in
  let marked := newDayTimestamps (exec (sync candles "AAPL") mounted) in
  size marked = 3%nat /\ size (dayKeys candles) = 2%nat /\
  (size marked <= length candles)%nat.
Proof.
  cbv zeta. split; [vm_compute; reflexivity|]. split; [vm_compute; reflexivity|].
  assert (Hv : Forall validCandle
            [candle (Finite 1700086400); candle (Finite 1700000000);
             candle (Finite 1700090000)])
    by (repeat constructor; eexists; vm_compute; reflexivity).
  assert (Hne : [candle (Finite 1700086400); candle (Finite 1700000000);
                 candle (Finite 1700090000)] ≠ []) by discriminate.
  exact (proj2 (proj2 (boundaries_any_order _ "AAPL" mounted live_mounted Hne Hv))).
Defined.

(* ===================================================================== *)
(** ** Further properties of a reconciliation pass *)
(* ===================================================================== *)

(** X5.  A pass with a live handle whose sequence carries a candle with a
    time no Date can hold throws the RangeError of [toISOString].  It has
    made no call on the engine and has left the chart, [hasData], the
    recorded symbol and the crosshair as they were; but the set of day
    boundaries is no longer the old one: it holds what the scan marked among
    the candles that come before the first such candle. *)
Theorem invalid_time_aborts_pass pre bad post symbol s :
  live s -> Forall validCandle pre -> ~ validCandle bad ->
  let candles := pre ++ bad :: post in
  let s' := exec (sync candles symbol) s in
  fst (sync candles symbol s) = Throw (RangeError "Invalid time value") /\
  engineCalls s' = engineCalls s /\
  chartRef s' = chartRef s /\ seriesRef s' = seriesRef s /\
  hasData s' = hasData s /\
  prevSymbolRef s' = prevSymbolRef s /\
  crosshairTime s' = crosshairTime s /\ crosshairX s' = crosshairX s /\
  newDayTimestamps s' = dayBoundaries None pre.
Proof.
  intros Hl Hpre Hbad candles s'.
  assert (Hne : candles ≠ []) by (unfold candles; by destruct pre).
  assert (Hv : ~ Forall validCandle candles).
  { unfold candles. intros H. apply Forall_app in H as [_ H].
    by apply Forall_cons in H as [H _]. }
  unfold s', exec. rewrite (sync_throws _ _ _ Hl Hne Hv). simpl.
  split_and!; try done.
  unfold candles. by apply dayBoundaries_app_invalid.
Qed.

Lemma invalid_time_aborts_pass_witness :
  let s := exec (sync [candle (Finite 0)] "AAPL") mounted in
  let candles := [candle (Finite 1700000000); candle (Finite 1700086400)]
                   ++ candle NaN :: [candle (Finite 1700186400)] in
  let s' := exec (sync candles "MSFT") s in
  newDayTimestamps s = {[ Finite 0 ]} /\
  fst (sync candles "MSFT" s) = Throw (RangeError "Invalid time value") /\
  engineCalls s' = engineCalls s /\
  hasData s' = hasData s /\
  prevSymbolRef s' = prevSymbolRef s /\
  newDayTimestamps s' = {[ Finite 1700000000; Finite 1700086400 ]}.
Proof.
  cbv zeta. split; [vm_compute; reflexivity|].
  assert (Hl : live (exec (sync [candle (Finite 0)] "AAPL") mounted))
    by exact (live_after_sync _ _ _ live_mounted).
  assert (Hpre : Forall validCandle [candle (Finite 1700000000); candle (Finite 1700086400)])
    by (repeat constructor; eexists; vm_compute; reflexivity).
  assert (Hbad : ~ validCandle (candle NaN)) by (intros [? ?]; discriminate).
  destruct (invalid_time_aborts_pass _ (candle NaN) [candle (Finite 1700186400)] "MSFT"
              _ Hl Hpre Hbad) as (H1 & H2 & _ & _ & H3 & H4 & _ & _ & H5).
  split_and!; [exact H1|exact H2|exact H3|exact H4|].
  etrans; [exact H5|]. vm_compute. reflexivity.
Defined.

(** X8.  The automatic reset is the manual one: with a live handle and a
    valid non-empty sequence, a pass that finds another symbol recorded ends
    in the very state of a pass that finds its own symbol recorded followed
    by [resetView]; in particular it makes the same calls on the engine in
    the same order. *)
Theorem automatic_reset_is_manual candles symbol s :
  live s -> candles ≠ [] -> Forall validCandle candles ->
  prevSymbolRef s ≠ Some symbol ->
  exec (sync candles symbol) s
  = exec resetView (exec (sync candles symbol) (set_prevSymbolRef (Some symbol) s)).
Proof.
  intros [[chart Hc] [series Hs]] Hne Hv Hp. unfold exec.
  rewrite (sync_complete _ _ _ chart series) by done.
  rewrite (sync_complete _ _ _ chart series) by done. simpl.
  rewrite decide_True by done. rewrite !decide_True by done.
  rewrite !decide_False by (by intros ?).
  unfold resetView, onChart, engine, modify, mbind, Eff_bind, get, resetCalls,
    set_engineCalls, set_chartRef. simpl.
  by rewrite <- !(assoc_L (++)).
Qed.

Lemma automatic_reset_is_manual_witness :
  exec (sync scenarioA "AAPL") mounted
  = exec resetView (exec (sync scenarioA "AAPL") (set_prevSymbolRef (Some "AAPL") mounted)).
Proof.
  apply automatic_reset_is_manual;
    [exact live_mounted|discriminate|exact scenarioA_valid|discriminate].
Defined.

(* ===================================================================== *)
(** ** Invariants of the hook *)
(* ===================================================================== *)

Module RunFacts.

Lemma guard_cases (candles : list Candle.t) s :
  (chartRef s = None \/ seriesRef s = None \/ candles = []) \/
  (exists chart series,
     chartRef s = Some chart /\ seriesRef s = Some series /\ candles ≠ []).
Proof.
  destruct (chartRef s) as [chart|]; [|by auto].
  destruct (seriesRef s) as [series|]; [|by auto].
  destruct candles as [|c rest]; [by auto|].
  right. by exists chart, series.
Qed.

Lemma sync_refs candles symbol s :
  (is_Some (chartRef (exec (sync candles symbol) s)) <-> is_Some (chartRef s)) /\
  seriesRef (exec (sync candles symbol) s) = seriesRef s.
Proof.
  unfold exec.
  destruct (guard_cases candles s) as [He|(chart & series & Hc & Hs & Hne)].
  { by rewrite sync_early by done. }
  assert (Hl : live s) by (split; by eexists).
  destruct (decide (Forall validCandle candles)) as [Hv|Hv].
  - rewrite (sync_complete _ _ _ chart series) by done. simpl.
    rewrite Hc, Hs. split; [|done]. split; by eexists.
  - by rewrite sync_throws by done.
Qed.

Lemma sync_newDayTimestamps candles symbol s t :
  t ∈ newDayTimestamps (exec (sync candles symbol) s) ->
  t ∈ newDayTimestamps s \/ validTimestamp t.
Proof.
  unfold exec.
  destruct (guard_cases candles s) as [He|(chart & series & Hc & Hs & Hne)].
  { rewrite sync_early by done. by left. }
  assert (Hl : live s) by (split; by eexists).
  destruct (decide (Forall validCandle candles)) as [Hv|Hv].
  - rewrite (sync_complete _ _ _ chart series) by done. simpl.
    right. by eapply dayBoundaries_valid.
  - rewrite sync_throws by done. simpl.
    right. by eapply dayBoundaries_valid.
Qed.

Lemma resetView_frame s :
  (is_Some (chartRef (exec resetView s)) <-> is_Some (chartRef s)) /\
  seriesRef (exec resetView s) = seriesRef s /\
  newDayTimestamps (exec resetView s) = newDayTimestamps s /\
  hasData (exec resetView s) = hasData s /\
  (chartRef s = None -> exec resetView s = s).
Proof.
  destruct s as [[chart|] ? ? ? ? ? ? ?]; split_and!; try done;
    split; intros [? ?]; by eexists.
Qed.

Lemma onCrosshairMove_frame fmt param s :
  chartRef (exec (onCrosshairMove fmt param) s) = chartRef s /\
  seriesRef (exec (onCrosshairMove fmt param) s) = seriesRef s /\
  newDayTimestamps (exec (onCrosshairMove fmt param) s) = newDayTimestamps s /\
  hasData (exec (onCrosshairMove fmt param) s) = hasData s /\
  engineCalls (exec (onCrosshairMove fmt param) s) = engineCalls s.
Proof.
  unfold exec, onCrosshairMove.
  by destruct (MouseEventParams.point param),
    (asNumber (MouseEventParams.time param)).
Qed.

(** The two handles are set together and cleared together. *)
Lemma handle_refs fmt e s :
  (is_Some (chartRef s) <-> is_Some (seriesRef s)) ->
  is_Some (chartRef (exec (handle fmt e) s)) <->
  is_Some (seriesRef (exec (handle fmt e) s)).
Proof.
  intros Hinv. destruct e as [[el|]| |candles symbol| |param]; simpl.
  - split; intros _; by eexists.
  - done.
  - split; intros [? ?]; discriminate.
  - destruct (sync_refs candles symbol s) as [-> ->]. done.
  - destruct (resetView_frame s) as (-> & -> & _). done.
  - destruct (onCrosshairMove_frame fmt param s) as (-> & -> & _). done.
Qed.

(** No handler puts a time no Date can hold among the day boundaries. *)
Lemma handle_newDayTimestamps fmt e s t :
  t ∈ newDayTimestamps (exec (handle fmt e) s) ->
  t ∈ newDayTimestamps s \/ validTimestamp t.
Proof.
  destruct e as [[el|]| |candles symbol| |param]; simpl; try by left.
  - apply sync_newDayTimestamps.
  - destruct (resetView_frame s) as (_ & _ & -> & _). by left.
  - destruct (onCrosshairMove_frame fmt param s) as (_ & _ & -> & _). by left.
Qed.

(** The label of a day boundary, and of any other tick, on a valid time. *)
Lemma tickMark_boundary LocalTZA s time t :
  timeValue (newDate (number_mul time 1000)) = Some t ->
  time ∈ newDayTimestamps s ->
  tickMarkFormatter LocalTZA s time
  = monthDayLabel (MonthFromTime (LocalTime LocalTZA t))
      (DateFromTime (LocalTime LocalTZA t)).
Proof.
  intros Htv Hin. unfold tickMarkFormatter. rewrite decide_True by done.
  unfold toLocaleString_month_short, getDate. by rewrite Htv.
Qed.

Lemma tickMark_clock LocalTZA s time t :
  timeValue (newDate (number_mul time 1000)) = Some t ->
  time ∉ newDayTimestamps s ->
  tickMarkFormatter LocalTZA s time
  = clockLabel (HourFromTime (LocalTime LocalTZA t))
      (MinFromTime (LocalTime LocalTZA t)).
Proof.
  intros Htv Hout. unfold tickMarkFormatter. rewrite decide_False by done.
  unfold getHours, getMinutes. rewrite Htv.
  rewrite displayHour_eq, ampm_eq by apply HourFromTime_range.
  unfold number_toString. by rewrite padStart_minutes by apply MinFromTime_range.
Qed.

(** A day of the month takes one or two characters. *)
Lemma pretty_day_length d : 1 <= d <= 31 -> (String.length (pretty d) <= 2)%nat.
Proof.
  intros Hd.
  pose (f := fun d : Z => Nat.leb (String.length (pretty (d + 1))) 2).
  assert (Hf : f (d - 1) = true)
    by (apply (check_range f 31); [vm_compute; reflexivity|lia]).
  unfold f in Hf. replace (d - 1 + 1) with d in Hf by lia.
  by apply Nat.leb_le in Hf.
Qed.

Lemma monthDayLabel_length month day :
  1 <= day <= 31 -> (String.length (monthDayLabel month day) <= 6)%nat.
Proof.
  intros Hd. unfold monthDayLabel. rewrite !append_length.
  pose proof (pretty_day_length day Hd).
  assert (String.length (shortMonth month) = 3%nat)
    by (unfold shortMonth; by repeat case_match).
  simpl. lia.
Qed.

End RunFacts.

Import RunFacts.

(** X7.  Whatever events a hook has gone through since its first render, in
    whatever order, the chart handle and the series handle are both set or
    both null: the two tests of the guard on line 127 always agree. *)
Theorem handles_set_together formatCrosshairTime events :
  let s := run formatCrosshairTime events initial in
  is_Some (chartRef s) <-> is_Some (seriesRef s).
Proof.
  assert (H : forall s, (is_Some (chartRef s) <-> is_Some (seriesRef s)) ->
    is_Some (chartRef (run formatCrosshairTime events s)) <->
    is_Some (seriesRef (run formatCrosshairTime events s))).
  { induction events as [|e rest IH]; intros s Hinv; simpl; [done|].
    by apply IH, handle_refs. }
  apply H. simpl. split; intros [? ?]; discriminate.
Qed.

(** X9.  Whatever events a hook has gone through since its first render,
    every time in its set of day boundaries is one a Date can hold; so on a
    day boundary the tick formatter always answers with a month and a day,
    never with the "Invalid Date" of an invalid date. *)
Theorem boundaries_are_valid formatCrosshairTime events LocalTZA time :
  let s := run formatCrosshairTime events initial in
  time ∈ newDayTimestamps s ->
  validTimestamp time /\ isMonthDayLabel (tickMarkFormatter LocalTZA s time).
Proof.
  assert (H : forall s0, (forall t, t ∈ newDayTimestamps s0 -> validTimestamp t) ->
    forall t, t ∈ newDayTimestamps (run formatCrosshairTime events s0) -> validTimestamp t).
  { induction events as [|e rest IH]; intros s0 Hinv t; simpl; [by apply Hinv|].
    apply IH. intros t' Ht'.
    destruct (handle_newDayTimestamps _ _ _ _ Ht'); [by apply Hinv|done]. }
  intros s Hin.
  assert (Hv : validTimestamp time).
  { apply (H initial); [|done]. simpl. by intros t ?%not_elem_of_empty. }
  split; [done|].
  destruct Hv as [t Ht]. rewrite (tickMark_boundary _ _ _ t) by done.
  exists (MonthFromTime (LocalTime LocalTZA t)), (DateFromTime (LocalTime LocalTZA t)).
  split; [apply MonthFromTime_range|]. split; [apply DateFromTime_range|done].
Qed.

Lemma boundaries_are_valid_witness :
  let events := [Mount (Some (mkDiv 640)); Reconcile scenarioA "AAPL"; Unmount] in
  let s := run (fun _ => "label") events initial in
  Finite 1700086400 ∈ newDayTimestamps s /\
  validTimestamp (Finite 1700086400) /\
  isMonthDayLabel (tickMarkFormatter (fun _ => 0) s (Finite 1700086400)).
Proof.
  cbv zeta.
  assert (Hin : Finite 1700086400 ∈ newDayTimestamps
            (run (fun _ => "label")
               [Mount (Some (mkDiv 640)); Reconcile scenarioA "AAPL"; Unmount] initial))
    by (apply (bool_decide_unpack _); vm_compute; exact I).
  split; [exact Hin|].
  exact (boundaries_are_valid (fun _ => "label")
           [Mount (Some (mkDiv 640)); Reconcile scenarioA "AAPL"; Unmount]
           (fun _ => 0) (Finite 1700086400) Hin).
Defined.

(** X10.  While the chart handle is null (before a mount that found its
    container, or after the cleanup), no reconciliation pass, manual reset or
    crosshair notification reaches the engine: the trace of calls stays as it
    is, the handle stays null, and [hasData] is false as soon as a pass has
    run. *)
Theorem no_call_without_handle formatCrosshairTime events s :
  chartRef s = None ->
  Forall (fun e => usesHandle e = true) events ->
  let s' := run formatCrosshairTime events s in
  engineCalls s' = engineCalls s /\
  chartRef s' = None /\
  hasData s' = (if existsb isReconcile events then false else hasData s).
Proof.
  intros Hc Hev. revert s Hc.
  induction Hev as [|e rest He _ IH]; intros s Hc; simpl; [done|].
  assert (Hstep : engineCalls (exec (handle formatCrosshairTime e) s) = engineCalls s /\
                  chartRef (exec (handle formatCrosshairTime e) s) = None /\
                  hasData (exec (handle formatCrosshairTime e) s)
                  = (if isReconcile e then false else hasData s)).
  { destruct e as [[el|]| |candles symbol| |param]; simpl in *; try discriminate.
    - unfold exec. rewrite sync_early by auto. by simpl.
    - destruct (resetView_frame s) as (_ & _ & _ & _ & ->); done.
    - destruct (onCrosshairMove_frame formatCrosshairTime param s)
        as (-> & _ & _ & -> & ->). done. }
  destruct Hstep as (Hcalls & Hc' & Hhas).
  destruct (IH _ Hc') as (IHcalls & IHc & IHhas).
  split_and!; [congruence|done|].
  rewrite IHhas, Hhas. by destruct (isReconcile e), (existsb isReconcile rest).
Qed.

Lemma no_call_without_handle_witness :
  let events := [ResetView; Reconcile scenarioA "AAPL";
                 CrosshairMove (MouseEventParams.mk None None); ResetView] in
  let s := exec unmount (exec (sync scenarioA "AAPL") mounted) in
  let s' := run (fun _ => "label") events s in
  hasData s = true /\
  engineCalls s' = engineCalls s /\ chartRef s' = None /\ hasData s' = false.
Proof.
  cbv zeta. split; [vm_compute; reflexivity|].
  apply (no_call_without_handle (fun _ => "label")
           [ResetView; Reconcile scenarioA "AAPL";
            CrosshairMove (MouseEventParams.mk None None); ResetView]
           (exec unmount (exec (sync scenarioA "AAPL") mounted))).
  - reflexivity.
  - repeat constructor.
Defined.

(** X11.  The cleanup clears the two handles and nothing else: the recorded
    symbol outlives it.  So when the hook is mounted again, a pass that
    brings the recorded symbol only pushes its data to the new chart; it
    makes no automatic reset. *)
Theorem remount_keeps_symbol container candles symbol s :
  prevSymbolRef s = Some symbol ->
  candles ≠ [] -> Forall validCandle candles ->
  let s1 := exec unmount s in
  let s2 := exec (mount (Some container)) s1 in
  let s3 := exec (sync candles symbol) s2 in
  prevSymbolRef s1 = Some symbol /\
  newDayTimestamps s1 = newDayTimestamps s /\
  hasData s1 = hasData s /\
  engineCalls s3
  = engineCalls s ++ [Remove; CreateChart (clientWidth container) 300;
                      AddCandlestickSeries; SubscribeCrosshairMove;
                      SetData (formatted candles)] /\
  chartRef s3
  = Some (setData (formatted candles) (createChart (clientWidth container) 300)).
Proof.
  intros Hp Hne Hv s1 s2 s3.
  split_and!; [done..| |].
  - unfold s3, exec.
    rewrite (sync_complete _ _ _ (createChart (clientWidth container) 300)
               CandlestickSeries) by done.
    simpl. rewrite decide_False by (rewrite Hp; by intros ?).
    by rewrite <- !(assoc_L (++)).
  - unfold s3, exec.
    rewrite (sync_complete _ _ _ (createChart (clientWidth container) 300)
               CandlestickSeries) by done.
    simpl. by rewrite decide_False by (rewrite Hp; by intros ?).
Qed.

Lemma remount_keeps_symbol_witness :
  let s := exec (sync scenarioA "AAPL") mounted in
  let s3 := exec (sync scenarioA "AAPL")
              (exec (mount (Some (mkDiv 800))) (exec unmount s)) in
  engineCalls s3
  = engineCalls s ++ [Remove; CreateChart 800 300; AddCandlestickSeries;
                      SubscribeCrosshairMove; SetData (formatted scenarioA)] /\
  viewport <$> chartRef s3 = Some (None, true).
Proof.
  cbv zeta.
  destruct (remount_keeps_symbol (mkDiv 800) scenarioA "AAPL"
              (exec (sync scenarioA "AAPL") mounted))
    as (_ & _ & _ & Hcalls & Hchart);
    [vm_compute; reflexivity|discriminate|exact scenarioA_valid|].
  split; [exact Hcalls|]. vm_compute. reflexivity.
Defined.

(* ===================================================================== *)
(** ** Further properties of the tick labels *)
(* ===================================================================== *)

(** X12.  On a timestamp that a Date can hold the tick label has at most
    eight characters, whatever the time zone and whether or not the tick is a
    day boundary: it fits in the [tickMarkMaxCharacterLength] of line 78. *)
Theorem tick_label_fits LocalTZA s time :
  validTimestamp time ->
  (String.length (tickMarkFormatter LocalTZA s time) <= 8)%nat /\
  (String.length (tickMarkFormatter LocalTZA s time) <= tickMarkMaxCharacterLength)%nat.
Proof.
  intros [t Ht].
  assert (H : (String.length (tickMarkFormatter LocalTZA s time) <= 8)%nat).
  { destruct (decide (time ∈ newDayTimestamps s)) as [Hin|Hout].
    - rewrite (tickMark_boundary _ _ _ t) by done.
      pose proof (monthDayLabel_length (MonthFromTime (LocalTime LocalTZA t))
                    (DateFromTime (LocalTime LocalTZA t)) (DateFromTime_range _)).
      lia.
    - rewrite (tickMark_clock _ _ _ t) by done. apply clockLabel_length. }
  unfold tickMarkMaxCharacterLength. lia.
Qed.

Lemma tick_label_fits_witness :
  tickMarkFormatter (fun _ => 0) initial (Finite 1700086500) = "10:15 PM" /\
  (String.length (tickMarkFormatter (fun _ => 0%Z) initial (Finite 1700086500)) <= 8)%nat.
Proof.
  split; [vm_compute; reflexivity|].
  apply (tick_label_fits (fun _ => 0) initial (Finite 1700086500)).
  eexists. vm_compute. reflexivity.
Defined.

(** X13.  The boundaries are found on UTC days and labelled in local time.
    When local time is UTC the two agree: the day key of a valid boundary
    time spells a month from 01 to 12 and a day from 01 to 31, and whatever
    month and day in these ranges the key spells, the tick shows that month
    and that day. *)
Theorem utc_label_matches_key s time :
  validTimestamp time -> time ∈ newDayTimestamps s ->
  (exists year month day,
     0 <= month <= 11 /\ 1 <= day <= 31 /\
     dayKey time
     = Some (isoYear year +:+ "-" +:+ digits 2 (month + 1) +:+ "-" +:+ digits 2 day) /\
     tickMarkFormatter (fun _ => 0) s time = monthDayLabel month day) /\
  (forall year month day,
     0 <= month <= 11 -> 1 <= day <= 31 ->
     dayKey time
     = Some (isoYear year +:+ "-" +:+ digits 2 (month + 1) +:+ "-" +:+ digits 2 day) ->
     tickMarkFormatter (fun _ => 0) s time = monthDayLabel month day).
Proof.
  intros [t Ht] Hin.
  assert (Hlabel : tickMarkFormatter (fun _ => 0) s time
                   = monthDayLabel (MonthFromTime t) (DateFromTime t)).
  { rewrite (tickMark_boundary _ _ _ t) by done.
    unfold LocalTime. by rewrite Z.add_0_r. }
  assert (Hkey : dayKey time = Some (isoDate t)) by (by rewrite dayKey_isoDate, Ht).
  pose proof (MonthFromTime_range t) as Hm. pose proof (DateFromTime_range t) as Hd.
  split.
  - exists (YearFromTime t), (MonthFromTime t), (DateFromTime t).
    split; [done|]. split; [done|]. split; [exact Hkey|exact Hlabel].
  - intros year month day Hmonth Hday Hspelt.
    rewrite Hkey in Hspelt. apply (inj Some) in Hspelt.
    pose proof (f_equal String.length Hspelt) as Hlen.
    rewrite isoDate_length, !append_length, !digits_length in Hlen. simpl in Hlen.
    unfold isoDate in Hspelt.
    apply append_inj in Hspelt as [_ Hrest]; [|lia].
    apply String_tail_inj in Hrest.
    apply append_inj in Hrest as [Hmm Hrest]; [|by rewrite !digits_length].
    apply String_tail_inj in Hrest.
    apply (digits_inj 2) in Hmm; [|simpl; lia..].
    apply (digits_inj 2) in Hrest; [|simpl; lia..].
    rewrite Hlabel. f_equal; lia.
Qed.

Lemma utc_label_matches_key_witness :
  let s := exec (sync scenarioA "AAPL") mounted in
  dayKey (Finite 1700086400) = Some "2023-11-15" /\
  tickMarkFormatter (fun _ => 0) s (Finite 1700086400) = "Nov 15" /\
  (* two hours east of Greenwich the same tick shows the local date *)
  tickMarkFormatter (fun _ => 7200000) s (Finite 1700086400) = "Nov 16" /\
  exists year month day,
    0 <= month <= 11 /\ 1 <= day <= 31 /\
    dayKey (Finite 1700086400)
    = Some (isoYear year +:+ "-" +:+ digits 2 (month + 1) +:+ "-" +:+ digits 2 day) /\
    tickMarkFormatter (fun _ => 0) s (Finite 1700086400) = monthDayLabel month day.
Proof.
  cbv zeta. split; [vm_compute; reflexivity|]. split; [vm_compute; reflexivity|].
  split; [vm_compute; reflexivity|].
  apply utc_label_matches_key.
  - eexists. vm_compute. reflexivity.
  - apply (bool_decide_unpack _). vm_compute. exact I.
Defined.

(* ===================================================================== *)
(** ** Further properties of the crosshair *)
(* ===================================================================== *)

(** X14.  The crosshair is never stale: after two pointer notifications the
    state is the one the second alone would have left, and a notification
    changes nothing but the two crosshair cells. *)
Theorem crosshair_last_wins formatCrosshairTime param1 param2 s :
  let s1 := exec (onCrosshairMove formatCrosshairTime param1) s in
  exec (onCrosshairMove formatCrosshairTime param2) s1
  = exec (onCrosshairMove formatCrosshairTime param2) s /\
  set_crosshairTime (crosshairTime s) (set_crosshairX (crosshairX s) s1) = s.
Proof.
  unfold exec, onCrosshairMove.
  destruct s.
  destruct (MouseEventParams.point param1), (asNumber (MouseEventParams.time param1)),
    (MouseEventParams.point param2), (asNumber (MouseEventParams.time param2));
    done.
Qed.
